(** * Weather ingestion pipeline: a shallow embedding of
      [collect_weather_data.py] and the properties of its specification.

    Numbers.  Python floats and ints are modelled by exact rationals [Q]
    (integers by [Z]); [round(x, 1)] is rounding of the exact value to the
    nearest tenth, ties to even; [int(x)] truncates towards zero.  Rational
    results are compared with [==] ([Qeq]).

    Dates.  A [datetime.date] is its day ordinal, so that
    [d + timedelta(days=1)] is [d + 1]; the ISO rendering produced by
    [strftime('%Y-%m-%d')] is not modelled.

    Randomness.  The [random] module is a tape of raw draws read through a
    position that every call advances.

    Storage.  The two tables are lists of rows in the order in which the
    engine scans them; [fetchone] returns the first row of a result.  The
    engine's column arithmetic (DECIMAL scale, integer averages) is not
    modelled: aggregates are computed exactly. *)

From Stdlib Require Import ZArith QArith Qround Qminmax Qabs Lqa Lia List.
From stdpp Require Import gmap strings list.

Local Open Scope Z_scope.

(** ** Python numeric primitives *)

(** [a > b] on numbers. *)
Definition Qgtb (a b : Q) : bool :=
  match Qcompare a b with Gt => true | _ => false end.

(** [a < b] on numbers. *)
Definition Qltb (a b : Q) : bool :=
  match Qcompare a b with Lt => true | _ => false end.

(** [int(x)]: truncation towards zero. *)
Definition py_int (x : Q) : Z := Z.quot (Qnum x) (Zpos (Qden x)).

(** Rounding to the nearest integer, ties to the even one. *)
Definition round_half_even (x : Q) : Z :=
  let f := Qfloor x in
  match Qcompare (x - inject_Z f) (1 # 2) with
  | Lt => f
  | Gt => f + 1
  | Eq => if Z.even f then f else f + 1
  end.

(** [round(x, 1)]. *)
Definition round1 (x : Q) : Q := (inject_Z (round_half_even (x * 10)) / 10)%Q.

(** The values with one decimal. *)
Definition one_decimal (q : Q) : Prop := exists k : Z, (q == inject_Z k / 10)%Q.

(** [max(lo, min(hi, x))]. *)
Definition clamp (lo hi x : Q) : Q := Qmax lo (Qmin hi x).

(** ** Classification of a day from its precipitation sums *)

Definition get_weather_condition (precipitation rain snowfall : Q) : string :=
  if Qgtb snowfall 0 then "Snow"
  else if Qgtb rain 0 then
    if Qgtb rain 10 then "Heavy Rain" else "Rain"
  else if Qgtb precipitation 0 then "Precipitation"
  else "Clear".

Definition get_weather_description (precipitation rain snowfall : Q) : string :=
  if Qgtb snowfall 0 then
    if Qgtb snowfall 5 then "Heavy snow" else "Light snow"
  else if Qgtb rain 0 then
    if Qgtb rain 10 then "Heavy rain"
    else if Qgtb rain 2 then "Moderate rain"
    else "Light rain"
  else if Qgtb precipitation 0 then "Precipitation"
  else "Clear sky".

(** The two tables of the specification, read top to bottom with the first
    matching rule winning. *)
Definition first_match (rules : list (bool * string)) (otherwise : string) : string :=
  match List.find fst rules with
  | Some (_, s) => s
  | None => otherwise
  end.

Definition condition_table (precipitation rain snowfall : Q) : string :=
  first_match
    [ (Qgtb snowfall 0, "Snow");
      (Qgtb rain 10, "Heavy Rain");
      (Qgtb rain 0, "Rain");
      (Qgtb precipitation 0, "Precipitation") ]
    "Clear".

Definition description_table (precipitation rain snowfall : Q) : string :=
  first_match
    [ (Qgtb snowfall 5, "Heavy snow");
      (Qgtb snowfall 0, "Light snow");
      (Qgtb rain 10, "Heavy rain");
      (Qgtb rain 2, "Moderate rain");
      (Qgtb rain 0, "Light rain");
      (Qgtb precipitation 0, "Precipitation") ]
    "Clear sky".

(** ** Day records *)

(** A [datetime.date], as its day ordinal. *)
Definition date := Z.

(** The dictionary built for one day by the fetcher and by the generator. *)
Record DailyWeather := {
  dw_date : date;
  temperature : Q;
  temperature_min : Q;
  temperature_max : Q;
  feels_like : Q;
  pressure : option Z;
  humidity : option Z;
  wind_speed : Q;
  wind_direction : Q;
  weather_condition : string;
  weather_description : string
}.

(** ** The [random] module and exceptions *)

(** The generator state: a tape of raw draws and the position of the next
    one.  [tape_unit] feeds [random()], [tape_int] feeds [_randbelow]. *)
Record rng := {
  tape_unit : nat -> Q;
  tape_int : nat -> Z;
  pos : nat
}.

Definition advance (g : rng) : rng :=
  {| tape_unit := tape_unit g; tape_int := tape_int g; pos := S (pos g) |}.

(** [random()] returns a value of the unit interval; the closed interval is
    allowed so that an end point reached by float rounding is covered. *)
Definition rng_ok (g : rng) : Prop :=
  forall i, (0 <= tape_unit g i <= 1)%Q.

(** How a call ends: with a value, with an exception, or (for a loop run with
    too little fuel) not at all. *)
Inductive outcome (A : Type) : Type :=
| Returned (a : A)
| Raised
| OutOfFuel.
Arguments Returned {A} a.
Arguments Raised {A}.
Arguments OutOfFuel {A}.

(** Computations that may draw random numbers and may raise. *)
Definition M (A : Type) : Type := rng -> outcome A * rng.

Definition ret {A} (a : A) : M A := fun g => (Returned a, g).

Definition raise {A} : M A := fun g => (Raised, g).

Definition bind {A B} (m : M A) (k : A -> M B) : M B :=
  fun g =>
    match m g with
    | (Returned a, g') => k a g'
    | (Raised, g') => (Raised, g')
    | (OutOfFuel, g') => (OutOfFuel, g')
    end.

Notation "'do' x <~ m ; k" := (bind m (fun x => k))
  (at level 10, x name, m at level 100, k at level 200).

(** [try: body except Exception: handler]. *)
Definition try_except {A} (body handler : M A) : M A :=
  fun g =>
    match body g with
    | (Raised, g') => handler g'
    | r => r
    end.

Definition random : M Q :=
  fun g => (Returned (tape_unit g (pos g)), advance g).

Definition randbelow (n : Z) : M Z :=
  fun g => (Returned (tape_int g (pos g) mod n), advance g).

(** [random.uniform(a, b)] is [a + (b - a) * random()]. *)
Definition uniform (a b : Q) : M Q :=
  do u <~ random ; ret (a + (b - a) * u)%Q.

(** [random.randint(a, b)] is [a + _randbelow(b - a + 1)]. *)
Definition randint (a b : Z) : M Z :=
  do k <~ randbelow (b - a + 1) ; ret (a + k).

(** [random.choice(seq)]; an empty sequence raises [IndexError]. *)
Definition choice {A} (seq : list A) : M A :=
  match seq with
  | [] => raise
  | _ =>
      do k <~ randbelow (Z.of_nat (length seq)) ;
      match seq !! Z.to_nat k with
      | Some x => ret x
      | None => raise
      end
  end.

(** [itertools.accumulate(weights)]. *)
Fixpoint accumulate_from (acc : Q) (ws : list Q) : list Q :=
  match ws with
  | [] => []
  | w :: ws' => (acc + w)%Q :: accumulate_from (acc + w)%Q ws'
  end.

Definition accumulate (ws : list Q) : list Q :=
  match ws with
  | [] => []
  | w :: ws' => w :: accumulate_from w ws'
  end.

(** [bisect.bisect(a, x, 0, hi)] on a non-decreasing [a]: the insertion point
    to the right of the entries [<= x] among the first [hi]. *)
Fixpoint bisect (a : list Q) (x : Q) (hi : nat) : nat :=
  match hi, a with
  | S hi', y :: a' => if Qltb x y then O else S (bisect a' x hi')
  | _, _ => O
  end.

(** [random.choices(population, weights=weights, k=1)[0]]. *)
Definition choices {A} (population : list A) (weights : list Q) : M A :=
  let n := length population in
  let cum_weights := accumulate weights in
  if negb (length cum_weights =? n)%nat then raise
  else
    match last cum_weights with
    | None => raise
    | Some total =>
        if Qle_bool total 0 then raise
        else
          do u <~ random ;
          match population !! bisect cum_weights (u * total)%Q (n - 1) with
          | Some x => ret x
          | None => raise
          end
    end.

(** ** The Synthetic Generator *)

Inductive season := winter | spring | summer | fall.

(** [m in ms]. *)
Definition month_in (m : Z) (ms : list Z) : bool := existsb (Z.eqb m) ms.

Definition current_season (is_northern : bool) (current_month : Z) : season :=
  if is_northern then
    if month_in current_month [12; 1; 2] then winter
    else if month_in current_month [3; 4; 5] then spring
    else if month_in current_month [6; 7; 8] then summer
    else fall
  else
    if month_in current_month [12; 1; 2] then summer
    else if month_in current_month [3; 4; 5] then fall
    else if month_in current_month [6; 7; 8] then winter
    else spring.

(** [(base_temp, temp_range)] of a season, before the latitude adjustment. *)
Definition season_temperatures (s : season) (is_northern : bool) : Q * Q :=
  match s with
  | winter => (if is_northern then 5 else 15, 10)
  | spring => (if is_northern then 15 else 20, 10)
  | summer => (if is_northern then 25 else 30, 10)
  | fall => (if is_northern then 15 else 20, 10)
  end%Q.

Definition is_northern_of (latitude : Q) : bool := Qgtb latitude 0.

(** The base temperature after the latitude adjustment. *)
Definition adjusted_base_temp (current_month : Z) (latitude : Q) : Q :=
  let is_northern := is_northern_of latitude in
  let base_temp := fst (season_temperatures (current_season is_northern current_month) is_northern) in
  let latitude_factor := (Qabs latitude / 90)%Q in
  if is_northern then (base_temp - latitude_factor * 10)%Q
  else (base_temp - latitude_factor * 10)%Q.

Definition temp_range_of (current_month : Z) (latitude : Q) : Q :=
  let is_northern := is_northern_of latitude in
  snd (season_temperatures (current_season is_northern current_month) is_northern).

Definition weather_conditions : list string :=
  ["Clear"; "Clouds"; "Rain"; "Snow"; "Thunderstorm"].

Definition weather_descriptions : gmap string (list string) :=
  list_to_map
    [ ("Clear", ["clear sky"; "sunny"; "mostly clear"]);
      ("Clouds", ["few clouds"; "scattered clouds"; "overcast"]);
      ("Rain", ["light rain"; "moderate rain"; "heavy rain"; "showers"]);
      ("Snow", ["light snow"; "moderate snow"; "heavy snow"; "blizzard"]);
      ("Thunderstorm", ["thunderstorm"; "thunderstorm with rain"; "severe thunderstorm"]) ].

(** The weights of the five conditions for a day. *)
Definition condition_weights (temp_min temp_mean : Q) : list Q :=
  (if Qltb temp_min 0 then [0.2; 0.2; 0.1; 0.4; 0.1]
   else if Qgtb temp_mean 30 then [0.3; 0.3; 0.2; 0; 0.2]
   else [0.3; 0.3; 0.2; 0.1; 0.1])%Q.

(** The mean temperature of a day before the clamp: a step from the previous
    record when there is one, a draw around the base otherwise. *)
Definition walk_temperature (base_temp temp_range : Q) (daily_data : list DailyWeather) : M Q :=
  match last daily_data with
  | Some prev =>
      let prev_temp := temperature prev in
      do u <~ uniform (-3) 3 ; ret (prev_temp + u)%Q
  | None =>
      do u <~ uniform (- temp_range / 2) (temp_range / 2) ; ret (base_temp + u)%Q
  end.

(** One iteration of the generator's loop: the record of [current_date]. *)
Definition sample_day (base_temp temp_range : Q) (current_date : date)
    (daily_data : list DailyWeather) : M DailyWeather :=
  do temp_mean <~ walk_temperature base_temp temp_range daily_data ;
  let temp_mean := clamp (-30) 50 temp_mean in
  do d_min <~ uniform 1 5 ;
  let temp_min := (temp_mean - d_min)%Q in
  do d_max <~ uniform 1 5 ;
  let temp_max := (temp_mean + d_max)%Q in
  do d_feel <~ uniform (-2) 2 ;
  let feels := (temp_mean + d_feel)%Q in
  do d_hum <~ uniform (-10) 10 ;
  let hum := py_int (40 + (temp_mean / 50) * 40 + d_hum)%Q in
  let hum := Z.max 10 (Z.min 100 hum) in
  do d_press <~ uniform (-15) 15 ;
  let press := py_int (1013 + d_press)%Q in
  do wind <~ uniform 0 20 ;
  do direction <~ randint 0 359 ;
  do condition <~ choices weather_conditions (condition_weights temp_min temp_mean) ;
  do description <~
    match weather_descriptions !! condition with
    | Some phrases => choice phrases
    | None => raise
    end ;
  ret {| dw_date := current_date;
         temperature := round1 temp_mean;
         temperature_min := round1 temp_min;
         temperature_max := round1 temp_max;
         feels_like := round1 feels;
         pressure := Some press;
         humidity := Some hum;
         wind_speed := round1 wind;
         wind_direction := inject_Z direction;
         weather_condition := condition;
         weather_description := description |}.

(** [while current_date <= end_date: ...], with fuel for the iterations. *)
Fixpoint sample_loop (fuel : nat) (base_temp temp_range : Q) (end_date current_date : date)
    (daily_data : list DailyWeather) : M (list DailyWeather) :=
  match fuel with
  | O => fun g => (OutOfFuel, g)
  | S fuel' =>
      if current_date <=? end_date then
        do daily_weather <~ sample_day base_temp temp_range current_date daily_data ;
        sample_loop fuel' base_temp temp_range end_date (current_date + 1)
          (daily_data ++ [daily_weather])
      else ret daily_data
  end.

(** [generate_sample_weather_data(start_date_str, end_date_str, latitude)];
    [current_month] is [datetime.date.today().month]. *)
Definition generate_sample_weather_data (current_month : Z) (start_date end_date : date)
    (latitude : Q) : M (list DailyWeather) :=
  let base_temp := adjusted_base_temp current_month latitude in
  let temp_range := temp_range_of current_month latitude in
  sample_loop (S (Z.to_nat (end_date + 1 - start_date))) base_temp temp_range
    end_date start_date [].

(** ** The Historical Fetcher *)

(** The [daily] object of the archive reply: the [time] array and the numeric
    series by name; an entry of a series is a number or [null]. *)
Record daily_dict := {
  time : option (list date);
  series : gmap string (list (option Q))
}.

(** What [requests.get(...)], [raise_for_status()] and [response.json()]
    deliver: an exception, or the decoded object with its [daily] entry. *)
Inductive api_reply :=
| ApiRaises
| ApiJson (daily : option daily_dict).

(** Truth value of [data.get('daily')]: a missing, null or empty object is
    false. *)
Definition daily_truthy (d : option daily_dict) : bool :=
  match d with
  | None => false
  | Some daily =>
      match time daily with
      | Some _ => true
      | None => negb (size (series daily) =? 0)%nat
      end
  end.

(** [daily.get(key, [dflt] * n)[i]]; an index past the end raises. *)
Definition series_get (daily : daily_dict) (key : string) (dflt : option Q) (n i : nat)
  : M (option Q) :=
  match default (replicate n dflt) (series daily !! key) !! i with
  | Some v => ret v
  | None => raise
  end.

(** [v or 0]. *)
Definition or_zero (v : option Q) : Q :=
  match v with
  | Some q => if Qeq_bool q 0 then 0%Q else q
  | None => 0%Q
  end.

(** The body of the fetcher's loop for index [i]; [None] is [continue]. *)
Definition fetch_day (daily : daily_dict) (time_array : list date) (i : nat) (day : date)
  : M (option DailyWeather) :=
  let n := length time_array in
  do temp_mean <~ series_get daily "temperature_2m_mean" None n i ;
  do temp_min <~ series_get daily "temperature_2m_min" None n i ;
  do temp_max <~ series_get daily "temperature_2m_max" None n i ;
  match temp_mean, temp_min, temp_max with
  | Some temp_mean, Some temp_min, Some temp_max =>
      do app_temp_max <~ series_get daily "apparent_temperature_max" None n i ;
      do app_temp_min <~ series_get daily "apparent_temperature_min" None n i ;
      let feels :=
        match app_temp_max, app_temp_min with
        | Some a, Some b => ((a + b) / 2)%Q
        | _, _ => temp_mean
        end in
      do humidity_max <~ series_get daily "relative_humidity_2m_max" None n i ;
      do humidity_min <~ series_get daily "relative_humidity_2m_min" None n i ;
      let hum :=
        match humidity_max, humidity_min with
        | Some a, Some b => Some (py_int ((a + b) / 2)%Q)
        | _, _ => None
        end in
      do pressure_max <~ series_get daily "pressure_msl_max" None n i ;
      do pressure_min <~ series_get daily "pressure_msl_min" None n i ;
      let press :=
        match pressure_max, pressure_min with
        | Some a, Some b => Some (py_int ((a + b) / 2)%Q)
        | _, _ => None
        end in
      do wind <~ series_get daily "windspeed_10m_max" None n i ;
      do direction <~ series_get daily "winddirection_10m_dominant" None n i ;
      let wind := match wind with Some w => w | None => 5.0%Q end in
      do direction <~
        match direction with
        | Some d => ret d
        | None => do k <~ randint 0 359 ; ret (inject_Z k)
        end ;
      do precipitation <~ series_get daily "precipitation_sum" (Some 0%Q) n i ;
      do rain <~ series_get daily "rain_sum" (Some 0%Q) n i ;
      do snowfall <~ series_get daily "snowfall_sum" (Some 0%Q) n i ;
      let precipitation := or_zero precipitation in
      let rain := or_zero rain in
      let snowfall := or_zero snowfall in
      ret (Some {| dw_date := day;
                   temperature := temp_mean;
                   temperature_min := temp_min;
                   temperature_max := temp_max;
                   feels_like := feels;
                   pressure := press;
                   humidity := hum;
                   wind_speed := wind;
                   wind_direction := direction;
                   weather_condition := get_weather_condition precipitation rain snowfall;
                   weather_description := get_weather_description precipitation rain snowfall |})
  | _, _, _ => ret None
  end.

(** [for i in range(len(time_array)): ...] from index [i] on; [rest] is
    [time_array[i:]]. *)
Fixpoint fetch_loop (daily : daily_dict) (time_array : list date) (i : nat) (rest : list date)
    (daily_data : list DailyWeather) : M (list DailyWeather) :=
  match rest with
  | [] => ret daily_data
  | day :: rest' =>
      do r <~ fetch_day daily time_array i day ;
      match r with
      | Some daily_weather =>
          fetch_loop daily time_array (S i) rest' (daily_data ++ [daily_weather])
      | None => fetch_loop daily time_array (S i) rest' daily_data
      end
  end.

(** The [try] block of [get_historical_weather_data]. *)
Definition fetch_body (reply : api_reply) : M (list DailyWeather) :=
  match reply with
  | ApiRaises => raise
  | ApiJson data_daily =>
      if negb (daily_truthy data_daily) then ret []
      else
        match data_daily with
        | None => raise
        | Some daily =>
            match time daily with
            | None => raise
            | Some time_array => fetch_loop daily time_array 0 time_array []
            end
        end
  end.

(** [get_historical_weather_data(latitude, longitude, start_date, end_date)];
    [reply] is what the archive answers to the request and [current_month]
    the month in which the call is made. *)
Definition get_historical_weather_data (reply : api_reply) (current_month : Z)
    (latitude longitude : Q) (start_date end_date : date) : M (list DailyWeather) :=
  try_except (fetch_body reply)
    (generate_sample_weather_data current_month start_date end_date latitude).

(** ** Storage *)

(** A row of [weather_data]. *)
Record WeatherDataRow := {
  wd_id : Z;
  wd_city_id : Z;
  wd_day : DailyWeather
}.

(** A row of [weather_stats]. *)
Record WeatherStatsRow := {
  ws_id : Z;
  ws_city_id : Z;
  stat_date : date;
  period_days : Z;
  avg_temperature : option Q;
  min_temperature : option Q;
  max_temperature : option Q;
  avg_humidity : option Q;
  min_humidity : option Q;
  max_humidity : option Q;
  avg_wind_speed : option Q;
  min_wind_speed : option Q;
  max_wind_speed : option Q;
  avg_pressure : option Q;
  min_pressure : option Q;
  max_pressure : option Q;
  dominant_condition : string
}.

(** The two tables with their IDENTITY counters. *)
Record Store := {
  weather_data : list WeatherDataRow;
  weather_data_next : Z;
  weather_stats : list WeatherStatsRow;
  weather_stats_next : Z
}.

(** [SELECT id FROM weather_data WHERE city_id = %s AND date = %s], then
    [fetchone()]. *)
Definition select_weather_data_id (s : Store) (city_id : Z) (d : date) : option Z :=
  match List.find (fun r => (wd_city_id r =? city_id) && (dw_date (wd_day r) =? d)) (weather_data s) with
  | Some r => Some (wd_id r)
  | None => None
  end.

(** The columns set by [UPDATE weather_data SET ... WHERE id = %s]: all but
    the key. *)
Definition set_weather_columns (r : WeatherDataRow) (daily_data : DailyWeather) : WeatherDataRow :=
  {| wd_id := wd_id r;
     wd_city_id := wd_city_id r;
     wd_day := {| dw_date := dw_date (wd_day r);
                  temperature := temperature daily_data;
                  temperature_min := temperature_min daily_data;
                  temperature_max := temperature_max daily_data;
                  feels_like := feels_like daily_data;
                  pressure := pressure daily_data;
                  humidity := humidity daily_data;
                  wind_speed := wind_speed daily_data;
                  wind_direction := wind_direction daily_data;
                  weather_condition := weather_condition daily_data;
                  weather_description := weather_description daily_data |} |}.

Definition update_weather_data (s : Store) (id : Z) (daily_data : DailyWeather) : Store :=
  {| weather_data :=
       map (fun r => if wd_id r =? id then set_weather_columns r daily_data else r)
         (weather_data s);
     weather_data_next := weather_data_next s;
     weather_stats := weather_stats s;
     weather_stats_next := weather_stats_next s |}.

Definition insert_weather_data (s : Store) (city_id : Z) (daily_data : DailyWeather) : Store :=
  {| weather_data :=
       weather_data s ++
       [{| wd_id := weather_data_next s; wd_city_id := city_id; wd_day := daily_data |}];
     weather_data_next := weather_data_next s + 1;
     weather_stats := weather_stats s;
     weather_stats_next := weather_stats_next s |}.

(** The body of the loop [for daily_data in weather_data] of [main]. *)
Definition upsert_weather_data (city_id : Z) (s : Store) (daily_data : DailyWeather) : Store :=
  match select_weather_data_id s city_id (dw_date daily_data) with
  | Some id => update_weather_data s id daily_data
  | None => insert_weather_data s city_id daily_data
  end.

(** ** The Period Aggregator *)

(** The values an SQL aggregate ranges over: NULLs are left out. *)
Definition non_null {A} (vs : list (option A)) : list A := omap id vs.

Definition Qsum (xs : list Q) : Q := fold_right Qplus 0%Q xs.

(** [AVG], [MIN] and [MAX]: NULL over no value. *)
Definition sql_avg (vs : list (option Q)) : option Q :=
  match non_null vs with
  | [] => None
  | xs => Some (Qsum xs / inject_Z (Z.of_nat (length xs)))%Q
  end.

Definition sql_min (vs : list (option Q)) : option Q :=
  match non_null vs with
  | [] => None
  | x :: xs => Some (fold_left Qmin xs x)
  end.

Definition sql_max (vs : list (option Q)) : option Q :=
  match non_null vs with
  | [] => None
  | x :: xs => Some (fold_left Qmax xs x)
  end.

(** [WHERE city_id = %s AND date BETWEEN %s AND %s]. *)
Definition in_window (city_id : Z) (start_date today : date) (r : WeatherDataRow) : bool :=
  (wd_city_id r =? city_id) && (start_date <=? dw_date (wd_day r)) && (dw_date (wd_day r) <=? today).

Definition window_rows (s : Store) (city_id : Z) (start_date today : date) : list WeatherDataRow :=
  List.filter (in_window city_id start_date today) (weather_data s).

(** The row returned by the statistics query, by the aliases of its
    columns. *)
Record stats_row := {
  avg_temp : option Q;
  min_temp : option Q;
  max_temp : option Q;
  q_avg_humidity : option Q;
  q_min_humidity : option Q;
  q_max_humidity : option Q;
  q_avg_wind_speed : option Q;
  q_min_wind_speed : option Q;
  q_max_wind_speed : option Q;
  q_avg_pressure : option Q;
  q_min_pressure : option Q;
  q_max_pressure : option Q
}.

Definition column {A} (f : DailyWeather -> A) (rows : list WeatherDataRow) : list A :=
  map (fun r => f (wd_day r)) rows.

Definition int_column (f : DailyWeather -> option Z) (rows : list WeatherDataRow)
  : list (option Q) :=
  map (fun r => option_map inject_Z (f (wd_day r))) rows.

Definition select_stats (s : Store) (city_id : Z) (start_date today : date) : stats_row :=
  let rows := window_rows s city_id start_date today in
  {| avg_temp := sql_avg (map Some (column temperature rows));
     min_temp := sql_min (map Some (column temperature_min rows));
     max_temp := sql_max (map Some (column temperature_max rows));
     q_avg_humidity := sql_avg (int_column humidity rows);
     q_min_humidity := sql_min (int_column humidity rows);
     q_max_humidity := sql_max (int_column humidity rows);
     q_avg_wind_speed := sql_avg (map Some (column wind_speed rows));
     q_min_wind_speed := sql_min (map Some (column wind_speed rows));
     q_max_wind_speed := sql_max (map Some (column wind_speed rows));
     q_avg_pressure := sql_avg (int_column pressure rows);
     q_min_pressure := sql_min (int_column pressure rows);
     q_max_pressure := sql_max (int_column pressure rows) |}.

(** [GROUP BY weather_condition] with [COUNT( * )]: one group per value, in
    the order of first appearance. *)
Fixpoint bump (c : string) (groups : list (string * nat)) : list (string * nat) :=
  match groups with
  | [] => [(c, 1%nat)]
  | (c', n) :: groups' =>
      if String.eqb c c' then (c', S n) :: groups' else (c', n) :: bump c groups'
  end.

Definition group_by_condition (rows : list WeatherDataRow) : list (string * nat) :=
  fold_left (fun groups r => bump (weather_condition (wd_day r)) groups) rows [].

(** [ORDER BY count DESC], as a stable insertion sort. *)
Fixpoint insert_by_count (x : string * nat) (l : list (string * nat)) : list (string * nat) :=
  match l with
  | [] => [x]
  | y :: l' =>
      if (snd y <? snd x)%nat then x :: y :: l' else y :: insert_by_count x l'
  end.

Definition order_by_count_desc (l : list (string * nat)) : list (string * nat) :=
  fold_right insert_by_count [] l.

(** The [TOP 1] query for the dominant condition, then [fetchone()]. *)
Definition select_dominant_condition (s : Store) (city_id : Z) (start_date today : date)
  : option (string * nat) :=
  head (order_by_count_desc (group_by_condition (window_rows s city_id start_date today))).

(** [SELECT id FROM weather_stats WHERE city_id = %s AND stat_date = %s AND
    period_days = %s], then [fetchone()]. *)
Definition select_weather_stats_id (s : Store) (city_id : Z) (today : date) (p : Z) : option Z :=
  match List.find (fun r => (ws_city_id r =? city_id) && (stat_date r =? today) && (period_days r =? p))
          (weather_stats s) with
  | Some r => Some (ws_id r)
  | None => None
  end.

Definition stats_columns (id city_id : Z) (d : date) (p : Z) (stats : stats_row)
    (dominant : string) : WeatherStatsRow :=
  {| ws_id := id; ws_city_id := city_id; stat_date := d; period_days := p;
     avg_temperature := avg_temp stats;
     min_temperature := min_temp stats;
     max_temperature := max_temp stats;
     avg_humidity := q_avg_humidity stats;
     min_humidity := q_min_humidity stats;
     max_humidity := q_max_humidity stats;
     avg_wind_speed := q_avg_wind_speed stats;
     min_wind_speed := q_min_wind_speed stats;
     max_wind_speed := q_max_wind_speed stats;
     avg_pressure := q_avg_pressure stats;
     min_pressure := q_min_pressure stats;
     max_pressure := q_max_pressure stats;
     dominant_condition := dominant |}.

(** [UPDATE weather_stats SET ... WHERE id = %s]: the key columns stay. *)
Definition update_weather_stats (s : Store) (id : Z) (stats : stats_row) (dominant : string)
  : Store :=
  {| weather_data := weather_data s;
     weather_data_next := weather_data_next s;
     weather_stats :=
       map (fun r =>
              if ws_id r =? id
              then stats_columns (ws_id r) (ws_city_id r) (stat_date r) (period_days r) stats dominant
              else r)
         (weather_stats s);
     weather_stats_next := weather_stats_next s |}.

Definition insert_weather_stats (s : Store) (city_id : Z) (today : date) (p : Z)
    (stats : stats_row) (dominant : string) : Store :=
  {| weather_data := weather_data s;
     weather_data_next := weather_data_next s;
     weather_stats :=
       weather_stats s ++ [stats_columns (weather_stats_next s) city_id today p stats dominant];
     weather_stats_next := weather_stats_next s + 1 |}.

(** The body of the loop [for period_days, start_date in periods]. *)
Definition stats_for_period (city_id : Z) (today : date) (s : Store) (period : Z * date) : Store :=
  let (p, start_date) := period in
  let result := select_weather_stats_id s city_id today p in
  let stats := select_stats s city_id start_date today in
  match avg_temp stats with
  | None => s
  | Some _ =>
      let dominant :=
        match select_dominant_condition s city_id start_date today with
        | Some condition_result => fst condition_result
        | None => "Unknown"
        end in
      match result with
      | Some id => update_weather_stats s id stats dominant
      | None => insert_weather_stats s city_id today p stats dominant
      end
  end.

(** [calculate_weather_stats(cursor, city_id)], run on the day [today]. *)
Definition calculate_weather_stats (s : Store) (city_id : Z) (today : date) : Store :=
  let seven_days_ago := today - 7 in
  let thirty_days_ago := today - 30 in
  let periods := [(7, seven_days_ago); (30, thirty_days_ago)] in
  fold_left (stats_for_period city_id today) periods s.

(** The part of [main] that stores one city's days and recomputes its
    statistics; an empty series skips the city. *)
Definition ingest_city (s : Store) (city_id : Z) (today : date)
    (weather_data : list DailyWeather) : Store :=
  match weather_data with
  | [] => s
  | _ =>
      let s' := fold_left (upsert_weather_data city_id) weather_data s in
      calculate_weather_stats s' city_id today
  end.

(** The UNIQUE constraints of the two tables. *)
Definition weather_data_key (r : WeatherDataRow) : Z * date :=
  (wd_city_id r, dw_date (wd_day r)).

Definition weather_stats_key (r : WeatherStatsRow) : Z * date * Z :=
  (ws_city_id r, stat_date r, period_days r).

Definition unique_keys (s : Store) : Prop :=
  NoDup (map weather_data_key (weather_data s)) /\
  NoDup (map weather_stats_key (weather_stats s)).

(** The PRIMARY KEY constraint of [weather_stats] with its IDENTITY
    counter: ids are distinct and below the next one. *)
Definition stats_ids_ok (s : Store) : Prop :=
  NoDup (map ws_id (weather_stats s)) /\
  Forall (fun r => ws_id r < weather_stats_next s) (weather_stats s).

(** The stored statistic of a key. *)
Definition lookup_stat (s : Store) (city_id : Z) (d : date) (p : Z) : option WeatherStatsRow :=
  List.find (fun r => (ws_city_id r =? city_id) && (stat_date r =? d) && (period_days r =? p))
    (weather_stats s).

(** ** Shape of a generated series *)

(** [r] can be the record that one iteration of the generator's loop appends
    after [prev] (the last record so far, if any): its mean temperature is a
    clamped step from [prev], or a clamped draw around the base. *)
Definition generated_from (base_temp temp_range : Q) (prev : option DailyWeather)
    (r : DailyWeather) : Prop :=
  exists noise d_min d_max : Q,
    match prev with
    | Some _ => (-3 <= noise <= 3)%Q
    | None => (0 <= temp_range -> - temp_range / 2 <= noise <= temp_range / 2)%Q
    end /\
    (1 <= d_min <= 5)%Q /\ (1 <= d_max <= 5)%Q /\
    let raw :=
      match prev with
      | Some p => (temperature p + noise)%Q
      | None => (base_temp + noise)%Q
      end in
    let temp_mean := clamp (-30) 50 raw in
    temperature r = round1 temp_mean /\
    temperature_min r = round1 (temp_mean - d_min) /\
    temperature_max r = round1 (temp_mean + d_max) /\
    ((30 < temp_mean)%Q -> weather_condition r <> "Snow").

(** The records appended from [current_date] on, each generated from the one
    before it. *)
Fixpoint generated_chain (base_temp temp_range : Q) (prev : option DailyWeather)
    (current_date : date) (out : list DailyWeather) : Prop :=
  match out with
  | [] => True
  | r :: out' =>
      dw_date r = current_date /\
      generated_from base_temp temp_range prev r /\
      generated_chain base_temp temp_range (Some r) (current_date + 1) out'
  end.

(** The record before position [i] of a series. *)
Definition previous_record (data : list DailyWeather) (i : nat) : option DailyWeather :=
  match i with
  | O => None
  | S j => data !! j
  end.

(** ** Sample inputs *)

(** A tape whose unit draws cycle through 0, 1/7, ..., 6/7. *)
Definition sample_tape : rng :=
  {| tape_unit := fun i => (Z.of_nat (i mod 7) # 7)%Q;
     tape_int := fun i => Z.of_nat (i * 37);
     pos := 0 |}.

(** ** Reading the archive reply *)

(** Every series of the reply has an entry for each time stamp. *)
Definition series_wf (daily : daily_dict) (n : nat) : Prop :=
  forall key l, series daily !! key = Some l -> (n <= length l)%nat.

(** Entry [i] of the series [key]: [None] when the series is missing or the
    entry is null. *)
Definition series_entry (daily : daily_dict) (key : string) (i : nat) : option Q :=
  match series daily !! key with
  | Some l => mjoin (l !! i)
  | None => None
  end.

(** Mean, minimum and maximum temperature are all present on day [i]. *)
Definition has_temperatures (daily : daily_dict) (i : nat) : bool :=
  match series_entry daily "temperature_2m_mean" i,
        series_entry daily "temperature_2m_min" i,
        series_entry daily "temperature_2m_max" i with
  | Some _, Some _, Some _ => true
  | _, _, _ => false
  end.

(** The indices of the days of the reply that carry all three
    temperatures. *)
Definition kept_indices (daily : daily_dict) (first count : nat) : list nat :=
  List.filter (has_temperatures daily) (seq first count).

(** The average of two entries when both are present. *)
Definition average_of (a b : option Q) : option Q :=
  match a, b with
  | Some x, Some y => Some ((x + y) / 2)%Q
  | _, _ => None
  end.

(** [r] is the record of day [i] of the reply, as the specification describes
    it. *)
Definition fetched_from (daily : daily_dict) (time_array : list date) (i : nat)
    (r : DailyWeather) : Prop :=
  let entry key := series_entry daily key i in
  time_array !! i = Some (dw_date r) /\
  entry "temperature_2m_mean" = Some (temperature r) /\
  entry "temperature_2m_min" = Some (temperature_min r) /\
  entry "temperature_2m_max" = Some (temperature_max r) /\
  feels_like r
  = default (temperature r)
      (average_of (entry "apparent_temperature_max") (entry "apparent_temperature_min")) /\
  humidity r
  = option_map py_int
      (average_of (entry "relative_humidity_2m_max") (entry "relative_humidity_2m_min")) /\
  pressure r
  = option_map py_int (average_of (entry "pressure_msl_max") (entry "pressure_msl_min")) /\
  wind_speed r = default 5.0%Q (entry "windspeed_10m_max") /\
  match entry "winddirection_10m_dominant" with
  | Some d => wind_direction r = d
  | None => exists k : Z, 0 <= k <= 359 /\ wind_direction r = inject_Z k
  end /\
  let precipitation := default 0%Q (entry "precipitation_sum") in
  let rain := default 0%Q (entry "rain_sum") in
  let snowfall := default 0%Q (entry "snowfall_sum") in
  weather_condition r = get_weather_condition precipitation rain snowfall /\
  weather_description r = get_weather_description precipitation rain snowfall.

(** A computation that leaves the draws of the tape valid. *)
Definition keeps_tape {A} (m : M A) : Prop :=
  forall g, rng_ok g -> rng_ok (snd (m g)).


(** ** Counting conditions *)

(** The number of rows whose [weather_condition] is [c]. *)
Definition condition_count (c : string) (rows : list WeatherDataRow) : nat :=
  length (List.filter (fun r => String.eqb (weather_condition (wd_day r)) c) rows).

(** The count recorded for [c] in a list of groups. *)
Fixpoint group_size (c : string) (groups : list (string * nat)) : nat :=
  match groups with
  | [] => O
  | (c', n) :: groups' => if String.eqb c c' then n else group_size c groups'
  end.

(** The dominant condition stored for a window: the condition of the first
    row of the TOP 1 query, "Unknown" if it has none. *)
Definition dominant_of (s : Store) (city_id : Z) (start_date today : date) : string :=
  match select_dominant_condition s city_id start_date today with
  | Some condition_result => fst condition_result
  | None => "Unknown"
  end.

(** [row] holds the statistics of the [p]-day window of [s] that ends on
    [today]. *)
Definition expected_row (s : Store) (city_id : Z) (today : date) (p : Z)
    (row : WeatherStatsRow) : Prop :=
  row = stats_columns (ws_id row) city_id today p
          (select_stats s city_id (today - p) today)
          (dominant_of s city_id (today - p) today).

(** The row matches the key of the statistics table. *)
Definition stats_key_is (city_id : Z) (d : date) (p : Z) (r : WeatherStatsRow) : bool :=
  (ws_city_id r =? city_id) && (stat_date r =? d) && (period_days r =? p).

(** A fixture day: the three temperatures coincide. *)
Definition fixture_day (d : date) (t : Q) (c : string) : DailyWeather :=
  {| dw_date := d; temperature := t; temperature_min := t; temperature_max := t;
     feels_like := t; pressure := Some 1013; humidity := None; wind_speed := 3%Q;
     wind_direction := 90%Q; weather_condition := c; weather_description := c |}.

(** City 1 has three days in the week before day 1000 and an older one;
    city 2 has one day; a 30-day statistic of city 1 is already stored. *)
Definition sample_store : Store :=
  {| weather_data :=
       [ {| wd_id := 1; wd_city_id := 1; wd_day := fixture_day 995 10 "Rain" |};
         {| wd_id := 2; wd_city_id := 2; wd_day := fixture_day 996 40 "Clear" |};
         {| wd_id := 3; wd_city_id := 1; wd_day := fixture_day 998 20 "Rain" |};
         {| wd_id := 4; wd_city_id := 1; wd_day := fixture_day 1000 30 "Clear" |};
         {| wd_id := 5; wd_city_id := 1; wd_day := fixture_day 900 (-5) "Snow" |} ];
     weather_data_next := 6;
     weather_stats :=
       [ {| ws_id := 1; ws_city_id := 1; stat_date := 1000; period_days := 30;
            avg_temperature := None; min_temperature := None; max_temperature := None;
            avg_humidity := None; min_humidity := None; max_humidity := None;
            avg_wind_speed := None; min_wind_speed := None; max_wind_speed := None;
            avg_pressure := None; min_pressure := None; max_pressure := None;
            dominant_condition := "Unknown" |} ];
     weather_stats_next := 2 |}.

(** Ten days of city 1 before day 1000: Clear on 3, Rain on 5, Snow on 2. *)
Definition condition_store : Store :=
  {| weather_data :=
       imap (fun i c => {| wd_id := Z.of_nat i + 1; wd_city_id := 1;
                           wd_day := fixture_day (991 + Z.of_nat i) 10 c |})
         ["Clear"; "Rain"; "Snow"; "Rain"; "Clear"; "Rain"; "Rain"; "Snow"; "Clear"; "Rain"];
     weather_data_next := 11;
     weather_stats := [];
     weather_stats_next := 1 |}.

(** Days to ingest for city 1: one already stored, two new, one of them
    twice. *)
Definition sample_days : list DailyWeather :=
  [ fixture_day 998 21 "Clear"; fixture_day 999 25 "Rain";
    fixture_day 1001 26 "Rain"; fixture_day 999 27 "Snow" ].

(** ** Seasons and classes *)


(** The condition class that a fetched description belongs to. *)
Definition condition_of_description (description : string) : option string :=
  if String.eqb description "Heavy snow" then Some "Snow"
  else if String.eqb description "Light snow" then Some "Snow"
  else if String.eqb description "Heavy rain" then Some "Heavy Rain"
  else if String.eqb description "Moderate rain" then Some "Rain"
  else if String.eqb description "Light rain" then Some "Rain"
  else if String.eqb description "Precipitation" then Some "Precipitation"
  else if String.eqb description "Clear sky" then Some "Clear"
  else None.

(** ** Plausibility of a generated record *)

(** Minimum, maximum and feels-like stay near the recorded mean. *)
Definition temperatures_spread (r : DailyWeather) : Prop :=
  (temperature r - 5 <= temperature_min r <= temperature r - 1)%Q /\
  (temperature r + 1 <= temperature_max r <= temperature r + 5)%Q /\
  (temperature r - 2 <= feels_like r <= temperature r + 2)%Q.

(** Humidity, pressure and wind are present and in their ranges. *)
Definition measurements_in_range (r : DailyWeather) : Prop :=
  (exists h, humidity r = Some h /\ 10 <= h <= 100) /\
  (exists p, pressure r = Some p /\ 998 <= p <= 1028) /\
  (0 <= wind_speed r <= 20)%Q /\
  (exists k, wind_direction r = inject_Z k /\ 0 <= k <= 359).

(** The description is one of the phrases of the record's condition. *)
Definition description_matches_condition (r : DailyWeather) : Prop :=
  In (weather_condition r) weather_conditions /\
  exists phrases,
    weather_descriptions !! weather_condition r = Some phrases /\
    In (weather_description r) phrases.

(** A computation that always ends, with a value or an exception. *)
Definition always_ends {A} (m : M A) : Prop :=
  forall g, fst (m g) <> OutOfFuel.


(** A degenerate reply: a series without a time array. *)
Definition daily_without_time : daily_dict :=
  {| time := None;
     series := {[ "temperature_2m_mean" := [Some 10%Q] ]} |}.


(** ** Reading the day table *)

(** The row of [weather_data] stored for a key. *)
Definition lookup_weather_data (s : Store) (city_id : Z) (d : date) : option WeatherDataRow :=
  List.find (fun r => (wd_city_id r =? city_id) && (dw_date (wd_day r) =? d)) (weather_data s).

(** The PRIMARY KEY constraint of [weather_data] with its IDENTITY counter. *)
Definition data_ids_ok (s : Store) : Prop :=
  NoDup (map wd_id (weather_data s)) /\
  Forall (fun r => wd_id r < weather_data_next s) (weather_data s).

(** The last record of a series for the date [d]. *)
Definition last_day_for (d : date) (days : list DailyWeather) : option DailyWeather :=
  last (List.filter (fun x => dw_date x =? d) days).

(** The rows of a city in the two tables. *)
Definition city_days (s : Store) (city_id : Z) : list WeatherDataRow :=
  List.filter (fun r => wd_city_id r =? city_id) (weather_data s).

Definition city_stats (s : Store) (city_id : Z) : list WeatherStatsRow :=
  List.filter (fun r => ws_city_id r =? city_id) (weather_stats s).


(** ** Cities and the batch *)

(** A result of the geocoding search, as [result.get(...)] reads it: each
    field may be missing. *)
Record city_info := {
  ci_name : option string;
  ci_country : option string;
  ci_latitude : option Q;
  ci_longitude : option Q
}.

(** What the geocoding request delivers: an exception, or the decoded object
    with its [results] entry. *)
Inductive geo_reply :=
| GeoRaises
| GeoJson (results : option (list city_info)).

(** [get_city_coordinates(city_name)]; [reply] is the answer to the
    request.  [None] when the request raises or finds no city. *)
Definition get_city_coordinates (reply : geo_reply) : option city_info :=
  match reply with
  | GeoRaises => None
  | GeoJson None => None
  | GeoJson (Some []) => None
  | GeoJson (Some (result :: _)) =>
      Some {| ci_name := ci_name result;
              ci_country := ci_country result;
              ci_latitude := ci_latitude result;
              ci_longitude := ci_longitude result |}
  end.

(** A row of [cities]; its columns are NOT NULL. *)
Record CityRow := {
  c_id : Z;
  c_name : string;
  c_country : string;
  c_latitude : Q;
  c_longitude : Q
}.

(** The three tables. *)
Record Database := {
  cities : list CityRow;
  cities_next : Z;
  tables : Store
}.

(** The storage engine decides two things that the program does not: when
    two texts are equal ([same_text], the collation of the column) and
    whether a row fits its columns ([accepts], their lengths and ranges). *)
Record Engine := {
  same_text : string -> string -> bool;
  accepts : string -> string -> Q -> Q -> bool
}.

(** [SELECT id FROM cities WHERE name = %s AND country = %s], then
    [fetchone()]; a NULL parameter equals nothing. *)
Definition select_city_id (e : Engine) (db : Database) (name country : option string)
  : option Z :=
  match name, country with
  | Some n, Some c =>
      match List.find (fun r => same_text e (c_name r) n && same_text e (c_country r) c)
              (cities db) with
      | Some r => Some (c_id r)
      | None => None
      end
  | _, _ => None
  end.

(** [INSERT INTO cities (name, country, latitude, longitude) VALUES ...];
    [None] when the engine refuses the row (a NULL, or a value that does not
    fit its column). *)
Definition insert_city (e : Engine) (db : Database) (info : city_info) : option Database :=
  match ci_name info, ci_country info, ci_latitude info, ci_longitude info with
  | Some n, Some c, Some lat, Some lon =>
      if accepts e n c lat lon then
        Some {| cities := cities db ++
                          [{| c_id := cities_next db; c_name := n; c_country := c;
                              c_latitude := lat; c_longitude := lon |}];
                cities_next := cities_next db + 1;
                tables := tables db |}
      else None
  | _, _, _, _ => None
  end.

(** The [try] block of [main] that finds or registers the city: the city id
    and the database, or [None] when an exception makes [main] skip the
    city. *)
Definition register_city (e : Engine) (db : Database) (info : city_info)
  : option (Z * Database) :=
  match select_city_id e db (ci_name info) (ci_country info) with
  | Some city_id => Some (city_id, db)
  | None =>
      match insert_city e db info with
      | None => None
      | Some db' =>
          match select_city_id e db' (ci_name info) (ci_country info) with
          | Some city_id => Some (city_id, db')
          | None => None
          end
      end
  end.

(** The call of the fetcher in [main]: the coordinates are whatever the
    geocoding result held.  Only the fallback looks at the latitude, and a
    missing one makes it raise. *)
Definition fetch_for_city (reply : api_reply) (current_month : Z) (info : city_info)
    (start_date end_date : date) : M (list DailyWeather) :=
  try_except (fetch_body reply)
    (match ci_latitude info with
     | Some latitude =>
         generate_sample_weather_data current_month start_date end_date latitude
     | None => raise
     end).

(** How the body of the loop over the cities ends. *)
Inductive city_status :=
| Skipped
| Stored (city_id : Z) (days : nat)
| Aborted.

(** The body of [for city_name in cities_to_collect]; [replies] are the
    answers of the geocoding and of the archive for this city. *)
Definition process_city (e : Engine) (today : date) (current_month : Z)
    (db : Database) (g : rng) (replies : geo_reply * api_reply)
  : city_status * Database * rng :=
  let end_date := today in
  let start_date := end_date - 30 in
  match get_city_coordinates (fst replies) with
  | None => (Skipped, db, g)
  | Some info =>
      match register_city e db info with
      | None => (Skipped, db, g)
      | Some (city_id, db1) =>
          match fetch_for_city (snd replies) current_month info start_date end_date g with
          | (Returned [], g') => (Skipped, db1, g')
          | (Returned weather_data, g') =>
              (Stored city_id (length weather_data),
               {| cities := cities db1; cities_next := cities_next db1;
                  tables := ingest_city (tables db1) city_id today weather_data |},
               g')
          | (_, g') => (Aborted, db1, g')
          end
      end
  end.

(** Step 2 of [main]: the cities in turn, until one aborts the run. *)
Fixpoint process_cities (e : Engine) (today : date) (current_month : Z)
    (db : Database) (g : rng) (batch : list (geo_reply * api_reply))
  : bool * Database * rng :=
  match batch with
  | [] => (true, db, g)
  | replies :: rest =>
      match process_city e today current_month db g replies with
      | (Aborted, db', g') => (false, db', g')
      | (_, db', g') => process_cities e today current_month db' g' rest
      end
  end.

(** The constraints of [cities]: UNIQUE (name, country) under the collation,
    distinct ids below the IDENTITY counter. *)
Definition same_city (e : Engine) (a b : CityRow) : bool :=
  same_text e (c_name a) (c_name b) && same_text e (c_country a) (c_country b).

Fixpoint cities_unique (e : Engine) (l : list CityRow) : Prop :=
  match l with
  | [] => True
  | a :: l' => Forall (fun b => same_city e a b = false) l' /\ cities_unique e l'
  end.

Definition cities_ok (e : Engine) (db : Database) : Prop :=
  cities_unique e (cities db) /\
  NoDup (map c_id (cities db)) /\
  Forall (fun r => c_id r < cities_next db) (cities db).

(** A collation is an equivalence on texts. *)
Definition collation (e : Engine) : Prop :=
  (forall a, same_text e a a = true) /\
  (forall a b, same_text e a b = same_text e b a) /\
  (forall a b c, same_text e a b = true -> same_text e b c = true -> same_text e a c = true).

(** The FOREIGN KEY constraints: every day and every statistic belongs to a
    stored city. *)
Definition foreign_keys_ok (db : Database) : Prop :=
  Forall (fun r => wd_city_id r ∈ map c_id (cities db)) (weather_data (tables db)) /\
  Forall (fun r => ws_city_id r ∈ map c_id (cities db)) (weather_stats (tables db)).

(** The engine of the examples: texts compared exactly, columns limited as
    in the schema (100 characters, coordinates below 1000 degrees). *)
Definition exact_engine : Engine :=
  {| same_text := String.eqb;
     accepts := fun n c lat lon =>
       (String.length n <=? 100)%nat && (String.length c <=? 100)%nat &&
       Qltb (Qabs lat) 1000 && Qltb (Qabs lon) 1000 |}.

Definition sample_database : Database :=
  {| cities :=
       [ {| c_id := 1; c_name := "Tel Aviv"; c_country := "Israel";
            c_latitude := 32.08%Q; c_longitude := 34.78%Q |};
         {| c_id := 2; c_name := "London"; c_country := "United Kingdom";
            c_latitude := 51.51%Q; c_longitude := (-0.13)%Q |} ];
     cities_next := 3;
     tables := sample_store |}.

Definition paris : city_info :=
  {| ci_name := Some "Paris"; ci_country := Some "France";
     ci_latitude := Some 48.85%Q; ci_longitude := Some 2.35%Q |}.

(** [sample_database] after Paris has been registered. *)
Definition sample_database_with_paris : Database :=
  {| cities := cities sample_database ++
               [{| c_id := 3; c_name := "Paris"; c_country := "France";
                   c_latitude := 48.85%Q; c_longitude := 2.35%Q |}];
     cities_next := 4;
     tables := sample_store |}.

(** All constraints of the schema together. *)
Definition database_ok (e : Engine) (db : Database) : Prop :=
  cities_ok e db /\
  data_ids_ok (tables db) /\ stats_ids_ok (tables db) /\ unique_keys (tables db) /\
  foreign_keys_ok db.

(** A batch of two cities: the first geocoding fails, the second finds
    Paris, whose archive request fails in turn. *)
Definition sample_batch : list (geo_reply * api_reply) :=
  [ (GeoRaises, ApiRaises); (GeoJson (Some [paris]), ApiRaises) ].

(** Every geocoding result of the batch that names a city has a latitude. *)
Definition batch_has_latitudes (batch : list (geo_reply * api_reply)) : Prop :=
  Forall (fun replies =>
            match get_city_coordinates (fst replies) with
            | Some info => is_Some (ci_latitude info)
            | None => True
            end) batch.

(** London as a geocoding result that lacks its coordinates. *)
Definition london_without_coordinates : city_info :=
  {| ci_name := Some "London"; ci_country := Some "United Kingdom";
     ci_latitude := None; ci_longitude := None |}.

(** A reply with two days, none of which has a mean temperature. *)
Definition daily_without_temperatures : daily_dict :=
  {| time := Some [400; 401];
     series :=
       list_to_map
         [ ("temperature_2m_mean", [None; None]);
           ("temperature_2m_min", [Some 5%Q; Some 6%Q]);
           ("temperature_2m_max", [Some 15%Q; Some 16%Q]) ] |}.

(** * Properties *)

Lemma Qgtb_true a b : Qgtb a b = true <-> (b < a)%Q.
Proof.
  unfold Qgtb. rewrite Qgt_alt. destruct (Qcompare a b); intuition congruence.
Qed.

Lemma Qgtb_false a b : Qgtb a b = false <-> (a <= b)%Q.
Proof.
  unfold Qgtb. rewrite Qle_alt. destruct (Qcompare a b); intuition congruence.
Qed.

Lemma Qltb_true a b : Qltb a b = true <-> (a < b)%Q.
Proof.
  unfold Qltb. rewrite Qlt_alt. destruct (Qcompare a b); intuition congruence.
Qed.

Lemma Qltb_false a b : Qltb a b = false <-> (b <= a)%Q.
Proof.
  generalize (Qltb_true a b). destruct (Qltb a b); intros [H1 H2]; split;
    intros H; try congruence.
  - exfalso. apply (Qlt_not_le a b); auto.
  - apply Qnot_lt_le. intros Hlt. apply H2 in Hlt. congruence.
Qed.


(** ** Classification *)

Ltac by_comparisons :=
  repeat match goal with
         | H : Qgtb _ _ = true |- _ => apply Qgtb_true in H
         | H : Qgtb _ _ = false |- _ => apply Qgtb_false in H
         | H : Qltb _ _ = true |- _ => apply Qltb_true in H
         | H : Qltb _ _ = false |- _ => apply Qltb_false in H
         end.

Lemma get_weather_condition_table p r s :
  get_weather_condition p r s = condition_table p r s.
Proof.
  unfold get_weather_condition, condition_table, first_match; simpl.
  destruct (Qgtb s 0) eqn:Hs; simpl; [reflexivity|].
  destruct (Qgtb r 0) eqn:Hr0, (Qgtb r 10) eqn:Hr10, (Qgtb p 0) eqn:Hp;
    simpl; try reflexivity; by_comparisons; lra.
Qed.

Lemma get_weather_description_table p r s :
  get_weather_description p r s = description_table p r s.
Proof.
  unfold get_weather_description, description_table, first_match; simpl.
  destruct (Qgtb s 0) eqn:Hs0, (Qgtb s 5) eqn:Hs5; simpl; try reflexivity;
    try (by_comparisons; lra).
  destruct (Qgtb r 0) eqn:Hr0, (Qgtb r 10) eqn:Hr10, (Qgtb r 2) eqn:Hr2,
    (Qgtb p 0) eqn:Hp; simpl; try reflexivity; by_comparisons; lra.
Qed.

(** C2: condition and description are functions of (precipitation, rain,
    snowfall) alone and agree, on every triple, with the two rule tables read
    first match first; the four sample triples classify as stated. *)
Theorem C2_classification_first_match :
  (forall precipitation rain snowfall,
      get_weather_condition precipitation rain snowfall
      = condition_table precipitation rain snowfall /\
      get_weather_description precipitation rain snowfall
      = description_table precipitation rain snowfall) /\
  (get_weather_condition 0 0 0, get_weather_description 0 0 0) = ("Clear", "Clear sky") /\
  (get_weather_condition 5 5 0, get_weather_description 5 5 0) = ("Rain", "Moderate rain") /\
  (get_weather_condition 0 0 3, get_weather_description 0 0 3) = ("Snow", "Light snow") /\
  (get_weather_condition 20 15 0, get_weather_description 20 15 0)
  = ("Heavy Rain", "Heavy rain").
Proof.
  split; [|repeat split; reflexivity].
  intros p r s. split.
  - apply get_weather_condition_table.
  - apply get_weather_description_table.
Qed.

(** ** Hemisphere and season *)

Lemma Qgtb_compat a a' b : (a == a')%Q -> Qgtb a b = Qgtb a' b.
Proof. intros H. unfold Qgtb. rewrite H. reflexivity. Qed.

(** C10: at latitude 0 the test [latitude > 0] is false, so season and base
    temperature are those of the southern table; from December to February
    the season is summer with base temperature 30, which the latitude
    adjustment leaves unchanged. *)
Theorem C10_equator_is_southern (latitude : Q) (current_month : Z) :
  (latitude == 0)%Q ->
  is_northern_of latitude = false /\
  current_season (is_northern_of latitude) current_month
  = current_season false current_month /\
  season_temperatures (current_season (is_northern_of latitude) current_month)
    (is_northern_of latitude)
  = season_temperatures (current_season false current_month) false /\
  (month_in current_month [12; 1; 2] = true ->
   current_season (is_northern_of latitude) current_month = summer /\
   fst (season_temperatures summer (is_northern_of latitude)) = 30%Q /\
   (adjusted_base_temp current_month latitude == 30)%Q).
Proof.
  intros Hlat.
  assert (Hn : is_northern_of latitude = false).
  { unfold is_northern_of. rewrite (Qgtb_compat _ 0 _ Hlat). reflexivity. }
  rewrite Hn. do 3 (split; [reflexivity|]).
  intros Hm. unfold adjusted_base_temp. rewrite Hn.
  unfold current_season. rewrite Hm.
  do 2 (split; [reflexivity|]). simpl.
  rewrite Hlat. reflexivity.
Qed.

Lemma C10_equator_is_southern_witness :
  is_northern_of 0 = false /\
  current_season (is_northern_of 0) 1 = current_season false 1 /\
  season_temperatures (current_season (is_northern_of 0) 1) (is_northern_of 0)
  = season_temperatures (current_season false 1) false /\
  (month_in 1 [12; 1; 2] = true ->
   current_season (is_northern_of 0) 1 = summer /\
   fst (season_temperatures summer (is_northern_of 0)) = 30%Q /\
   (adjusted_base_temp 1 0 == 30)%Q).
Proof. apply (C10_equator_is_southern 0 1). reflexivity. Defined.

(** ** Rounding *)

Lemma round_half_even_floor x :
  Qfloor x <= round_half_even x <= Qfloor x + 1.
Proof.
  unfold round_half_even.
  destruct (Qcompare _ _); [destruct (Z.even _)|..]; lia.
Qed.

Lemma round_half_even_lower (k : Z) (x : Q) :
  (inject_Z k <= x)%Q -> k <= round_half_even x.
Proof.
  intros H. apply Qfloor_resp_le in H. rewrite Qfloor_Z in H.
  pose proof (round_half_even_floor x). lia.
Qed.

Lemma round_half_even_cases x :
  ((x - inject_Z (Qfloor x) < 1 # 2)%Q /\ round_half_even x = Qfloor x) \/
  ((x - inject_Z (Qfloor x) == 1 # 2)%Q /\
   Qfloor x <= round_half_even x <= Qfloor x + 1) \/
  ((1 # 2 < x - inject_Z (Qfloor x))%Q /\ round_half_even x = Qfloor x + 1).
Proof.
  pose proof (round_half_even_floor x) as Hf.
  unfold round_half_even in *.
  destruct (Qcompare (x - inject_Z (Qfloor x)) (1 # 2)) eqn:Hc.
  - right; left. split; [apply Qeq_alt; exact Hc|exact Hf].
  - left. split; [apply Qlt_alt; exact Hc|reflexivity].
  - right; right. split; [apply Qgt_alt; exact Hc|reflexivity].
Qed.

Lemma round_half_even_comp x y : (x == y)%Q -> round_half_even x = round_half_even y.
Proof.
  intros H. unfold round_half_even.
  rewrite (Qfloor_comp _ _ H).
  assert (Hc : Qcompare (x - inject_Z (Qfloor y)) (1 # 2)
               = Qcompare (y - inject_Z (Qfloor y)) (1 # 2))
    by (rewrite H; reflexivity).
  rewrite Hc. reflexivity.
Qed.

Lemma round_half_even_upper (k : Z) (x : Q) :
  (x <= inject_Z k)%Q -> round_half_even x <= k.
Proof.
  intros H. pose proof (round_half_even_floor x) as Hf.
  pose proof (Qfloor_resp_le _ _ H) as Hk. rewrite Qfloor_Z in Hk.
  destruct (Z.eq_dec (Qfloor x) k) as [Heq|Hne]; [|lia].
  destruct (round_half_even_cases x) as [[Hd Hr]|[[Hd Hr]|[Hd Hr]]];
    rewrite Heq in *; first [lia | lra].
Qed.

Lemma round_half_even_mono (x y : Q) :
  (x <= y)%Q -> round_half_even x <= round_half_even y.
Proof.
  intros H. pose proof (round_half_even_floor x) as Hx.
  pose proof (round_half_even_floor y) as Hy.
  pose proof (Qfloor_resp_le _ _ H) as Hf.
  destruct (Z.eq_dec (Qfloor x) (Qfloor y)) as [Heq|Hne]; [|lia].
  destruct (round_half_even_cases y) as [[Hd Hr]|[[Hd Hr]|[Hd Hr]]];
    destruct (round_half_even_cases x) as [[Hd' Hr']|[[Hd' Hr']|[Hd' Hr']]];
    rewrite <- Heq in *; try lia; try lra.
  assert (Hxy : (x == y)%Q) by lra.
  rewrite (round_half_even_comp _ _ Hxy). lia.
Qed.

Lemma Qdiv_10 (q : Q) : (q / 10 == q * (1 # 10))%Q.
Proof. reflexivity. Qed.

Lemma round1_mono (x y : Q) : (x <= y)%Q -> (round1 x <= round1 y)%Q.
Proof.
  intros H. unfold round1.
  assert (Hm : round_half_even (x * 10) <= round_half_even (y * 10))
    by (apply round_half_even_mono; lra).
  rewrite Zle_Qle in Hm. rewrite !Qdiv_10. lra.
Qed.


Lemma round1_lower (a x : Q) : one_decimal a -> (a <= x)%Q -> (a <= round1 x)%Q.
Proof.
  intros [k Hk] H. unfold round1. rewrite Qdiv_10 in Hk.
  assert (Hm : k <= round_half_even (x * 10))
    by (apply round_half_even_lower; lra).
  rewrite Zle_Qle in Hm. rewrite Qdiv_10. lra.
Qed.

Lemma round1_upper (b x : Q) : one_decimal b -> (x <= b)%Q -> (round1 x <= b)%Q.
Proof.
  intros [k Hk] H. unfold round1. rewrite Qdiv_10 in Hk.
  assert (Hm : round_half_even (x * 10) <= k)
    by (apply round_half_even_upper; lra).
  rewrite Zle_Qle in Hm. rewrite Qdiv_10. lra.
Qed.

Lemma one_decimal_Z (z : Z) : one_decimal (inject_Z z).
Proof.
  exists (z * 10). rewrite inject_Z_mult.
  change (inject_Z 10) with 10%Q. field.
Qed.






(** ** The [random] module *)

Lemma bind_returned {A B} (m : M A) (k : A -> M B) g a g' :
  m g = (Returned a, g') -> bind m k g = k a g'.
Proof. intros H. unfold bind. rewrite H. reflexivity. Qed.

Lemma rng_ok_advance g : rng_ok g -> rng_ok (advance g).
Proof. intros H i. apply H. Qed.

Lemma uniform_eq a b g :
  uniform a b g = (Returned (a + (b - a) * tape_unit g (pos g))%Q, advance g).
Proof. reflexivity. Qed.

Lemma uniform_range a b u :
  (a <= b)%Q -> (0 <= u <= 1)%Q -> (a <= a + (b - a) * u <= b)%Q.
Proof. intros Hab [H0 H1]. split; nra. Qed.

Lemma randint_eq a b g :
  randint a b g = (Returned (a + tape_int g (pos g) mod (b - a + 1)), advance g).
Proof. reflexivity. Qed.

Lemma choice_returns {A} (seq : list A) g :
  seq <> [] ->
  exists x, choice seq g = (Returned x, advance g) /\ In x seq.
Proof.
  intros Hne. destruct seq as [|a seq']; [congruence|].
  unfold choice, bind, randbelow.
  set (n := Z.of_nat (length (a :: seq'))).
  assert (Hn : 0 < n) by (unfold n; simpl; lia).
  pose proof (Z.mod_pos_bound (tape_int g (pos g)) n Hn) as Hk.
  destruct ((a :: seq') !! Z.to_nat (tape_int g (pos g) mod n)) as [x|] eqn:Hx.
  - exists x. split; [reflexivity|].
    apply list_elem_of_In. eapply list_elem_of_lookup_2. exact Hx.
  - apply lookup_ge_None in Hx. unfold n in *. lia.
Qed.

Lemma descriptions_total c :
  In c weather_conditions ->
  exists phrases, weather_descriptions !! c = Some phrases /\ phrases <> [].
Proof.
  unfold weather_conditions. simpl.
  intros [<-|[<-|[<-|[<-|[<-|[]]]]]]; eexists; (split; [vm_compute; reflexivity|discriminate]).
Qed.

Lemma choices_conditions temp_min temp_mean g :
  rng_ok g ->
  exists c,
    choices weather_conditions (condition_weights temp_min temp_mean) g
    = (Returned c, advance g) /\
    In c weather_conditions /\
    (Qltb temp_min 0 = false -> Qgtb temp_mean 30 = true -> c <> "Snow").
Proof.
  intros Hg. pose proof (Hg (pos g)) as Hu.
  unfold condition_weights, choices, bind, random.
  destruct (Qltb temp_min 0) eqn:Hmin; [|destruct (Qgtb temp_mean 30) eqn:Hmean];
    cbv [accumulate accumulate_from weather_conditions length Nat.eqb negb last Nat.sub];
    match goal with
    | |- context [Qle_bool ?t 0] =>
        replace (Qle_bool t 0) with false by (vm_compute; reflexivity)
    end;
    cbv [bisect];
    repeat match goal with
           | |- context [Qltb ?x ?y] => destruct (Qltb x y) eqn:?
           end;
    cbn [lookup list_lookup];
    eexists; (split; [reflexivity|]);
    (split; [simpl; tauto|]);
    intros; try discriminate; try congruence.
  by_comparisons. lra.
Qed.

(** ** One day of the generator *)

(** What one iteration of the loop yields, for any draws of the tape. *)
Lemma sample_day_spec base_temp temp_range current_date daily_data g :
  rng_ok g ->
  exists r g',
    sample_day base_temp temp_range current_date daily_data g = (Returned r, g') /\
    rng_ok g' /\
    dw_date r = current_date /\
    generated_from base_temp temp_range (last daily_data) r.
Proof.
  intros Hg.
  unfold sample_day, walk_temperature.
  set (u0 := tape_unit g (pos g)).
  set (noise := match last daily_data with
                | Some _ => (-3 + (3 - -3) * u0)%Q
                | None => (- temp_range / 2 + (temp_range / 2 - - temp_range / 2) * u0)%Q
                end).
  set (raw := match last daily_data with
              | Some prev => (temperature prev + noise)%Q
              | None => (base_temp + noise)%Q
              end).
  set (g1 := advance g).
  set (d_min := (1 + (5 - 1) * tape_unit g1 (pos g1))%Q).
  set (d_max := (1 + (5 - 1) * tape_unit (advance g1) (pos (advance g1)))%Q).
  set (temp_mean := clamp (-30) 50 raw).
  set (g8 := advance (advance (advance (advance (advance (advance (advance g1))))))).
  assert (Hg8 : rng_ok g8) by (repeat apply rng_ok_advance; exact Hg).
  destruct (choices_conditions (temp_mean - d_min) temp_mean g8 Hg8)
    as (c & Hc & Hin & Hsnow).
  destruct (descriptions_total c Hin) as (phrases & Hph & Hne).
  destruct (choice_returns phrases (advance g8) Hne) as (descr & Hd & _).
  assert (Hmin : (1 <= d_min <= 5)%Q).
  { apply uniform_range; [lra|apply Hg]. }
  assert (Hmax : (1 <= d_max <= 5)%Q).
  { apply uniform_range; [lra|apply Hg]. }
  eexists _, (advance (advance g8)).
  split.
  { assert (Hwalk : (match last daily_data with
                     | Some prev =>
                         let prev_temp := temperature prev in
                         do u <~ uniform (-3) 3 ; ret (prev_temp + u)%Q
                     | None =>
                         do u <~ uniform (- temp_range / 2) (temp_range / 2) ;
                         ret (base_temp + u)%Q
                     end) g = (Returned raw, g1)).
    { unfold raw, noise. destruct (last daily_data); reflexivity. }
    rewrite (bind_returned _ _ _ _ _ Hwalk).
    do 6 (erewrite bind_returned; [|apply uniform_eq]).
    erewrite bind_returned; [|apply randint_eq].
    erewrite bind_returned; [|exact Hc].
    rewrite Hph.
    erewrite bind_returned; [|exact Hd].
    reflexivity. }
  split; [repeat apply rng_ok_advance; exact Hg8|].
  split; [reflexivity|].
  exists noise, d_min, d_max.
  split.
  { unfold noise. destruct (last daily_data).
    - apply uniform_range; [lra|apply Hg].
    - intros Hr. apply uniform_range; [|apply Hg].
      unfold Qdiv. change (/ 2)%Q with (1 # 2)%Q. lra. }
  split; [exact Hmin|]. split; [exact Hmax|].
  cbv zeta. fold raw. fold temp_mean.
  repeat split.
  intros Hhot. apply Hsnow.
  - apply Qltb_false. lra.
  - apply Qgtb_true. exact Hhot.
Qed.

(** ** The generator's loop *)

Lemma sample_loop_spec base_temp temp_range end_date fuel :
  forall current_date daily_data g,
    rng_ok g ->
    (Z.to_nat (end_date + 1 - current_date) < fuel)%nat ->
    exists out g',
      sample_loop fuel base_temp temp_range end_date current_date daily_data g
      = (Returned (daily_data ++ out), g') /\
      rng_ok g' /\
      length out = Z.to_nat (end_date + 1 - current_date) /\
      generated_chain base_temp temp_range (last daily_data) current_date out.
Proof.
  induction fuel as [|fuel IH]; intros current_date daily_data g Hg Hfuel; [lia|].
  simpl. destruct (current_date <=? end_date) eqn:Hle.
  - apply Z.leb_le in Hle.
    destruct (sample_day_spec base_temp temp_range current_date daily_data g Hg)
      as (r & g1 & Hday & Hg1 & Hdate & Hgen).
    destruct (IH (current_date + 1) (daily_data ++ [r]) g1 Hg1) as (out & g2 & Hloop & Hg2 & Hlen & Hchain);
      [lia|].
    exists (r :: out), g2.
    rewrite (bind_returned _ _ _ _ _ Hday), Hloop, <- app_assoc.
    split; [reflexivity|]. split; [exact Hg2|].
    split; [simpl; lia|].
    rewrite last_snoc in Hchain. simpl. auto.
  - apply Z.leb_gt in Hle. exists [], g.
    rewrite app_nil_r. split; [reflexivity|]. split; [exact Hg|].
    split; [simpl; lia|exact I].
Qed.

Lemma generate_sample_weather_data_spec current_month start_date end_date latitude g :
  rng_ok g ->
  exists data g',
    generate_sample_weather_data current_month start_date end_date latitude g
    = (Returned data, g') /\
    rng_ok g' /\
    length data = Z.to_nat (end_date + 1 - start_date) /\
    generated_chain (adjusted_base_temp current_month latitude)
      (temp_range_of current_month latitude) None start_date data.
Proof.
  intros Hg. unfold generate_sample_weather_data.
  destruct (sample_loop_spec (adjusted_base_temp current_month latitude)
              (temp_range_of current_month latitude) end_date
              (S (Z.to_nat (end_date + 1 - start_date))) start_date [] g Hg)
    as (out & g' & Hloop & Hg' & Hlen & Hchain); [lia|].
  exists out, g'. auto.
Qed.



(** ** Bounds on a generated record *)

Lemma one_decimal_const (k : Z) : one_decimal (inject_Z k / 10).
Proof. exists k. reflexivity. Qed.






Lemma sample_tape_ok : rng_ok sample_tape.
Proof.
  intros i. unfold Qle. simpl.
  pose proof (Nat.mod_upper_bound i 7). lia.
Qed.

(** ** The Synthetic Generator *)









(** ** The Historical Fetcher *)

Lemma series_get_none daily key n i g :
  series_wf daily n -> (i < n)%nat ->
  series_get daily key None n i g = (Returned (series_entry daily key i), g).
Proof.
  intros Hwf Hi. unfold series_get, series_entry.
  destruct (series daily !! key) as [l|] eqn:Hl; simpl.
  - destruct (l !! i) as [v|] eqn:Hv; [reflexivity|].
    apply lookup_ge_None in Hv. specialize (Hwf _ _ Hl). lia.
  - rewrite lookup_replicate_2 by exact Hi. reflexivity.
Qed.

Lemma series_get_zero daily key n i g :
  series_wf daily n -> (i < n)%nat ->
  exists v,
    series_get daily key (Some 0%Q) n i g = (Returned v, g) /\
    (or_zero v == default 0 (series_entry daily key i))%Q.
Proof.
  intros Hwf Hi. unfold series_get, series_entry.
  destruct (series daily !! key) as [l|] eqn:Hl; simpl.
  - destruct (l !! i) as [v|] eqn:Hv.
    + exists v. split; [reflexivity|].
      destruct v as [q|]; simpl; [|reflexivity].
      destruct (Qeq_bool q 0) eqn:Hq; [|reflexivity].
      apply Qeq_bool_iff in Hq. symmetry. exact Hq.
    + apply lookup_ge_None in Hv. specialize (Hwf _ _ Hl). lia.
  - rewrite lookup_replicate_2 by exact Hi.
    exists (Some 0%Q). split; reflexivity.
Qed.

Lemma get_weather_condition_compat p p' r r' s s' :
  (p == p')%Q -> (r == r')%Q -> (s == s')%Q ->
  get_weather_condition p r s = get_weather_condition p' r' s'.
Proof.
  intros Hp Hr Hs. unfold get_weather_condition.
  rewrite (Qgtb_compat _ _ _ Hp), !(Qgtb_compat _ _ _ Hr), (Qgtb_compat _ _ _ Hs).
  reflexivity.
Qed.

Lemma get_weather_description_compat p p' r r' s s' :
  (p == p')%Q -> (r == r')%Q -> (s == s')%Q ->
  get_weather_description p r s = get_weather_description p' r' s'.
Proof.
  intros Hp Hr Hs. unfold get_weather_description.
  rewrite (Qgtb_compat _ _ _ Hp), !(Qgtb_compat _ _ _ Hr), !(Qgtb_compat _ _ _ Hs).
  reflexivity.
Qed.

(** The loop body on a well-formed reply: a day without its three
    temperatures is skipped, any other day yields its record. *)
Lemma fetch_day_spec daily time_array i day g :
  series_wf daily (length time_array) ->
  time_array !! i = Some day ->
  exists res g',
    fetch_day daily time_array i day g = (Returned res, g') /\
    if has_temperatures daily i
    then exists r, res = Some r /\ fetched_from daily time_array i r
    else res = None.
Proof.
  intros Hwf Hday.
  assert (Hi : (i < length time_array)%nat) by (eapply lookup_lt_Some; exact Hday).
  unfold fetch_day, has_temperatures.
  do 3 (erewrite bind_returned; [|apply series_get_none; assumption]).
  destruct (series_entry daily "temperature_2m_mean" i) as [temp_mean|] eqn:Hmean;
    [|eexists _, g; split; reflexivity].
  destruct (series_entry daily "temperature_2m_min" i) as [temp_min|] eqn:Hmin;
    [|eexists _, g; split; reflexivity].
  destruct (series_entry daily "temperature_2m_max" i) as [temp_max|] eqn:Hmax;
    [|eexists _, g; split; reflexivity].
  do 8 (erewrite bind_returned; [|apply series_get_none; assumption]).
  set (g1 := match series_entry daily "winddirection_10m_dominant" i with
             | Some _ => g
             | None => advance g
             end).
  destruct (series_get_zero daily "precipitation_sum" _ i g1 Hwf Hi) as (vp & Hvp & Hp).
  destruct (series_get_zero daily "rain_sum" _ i g1 Hwf Hi) as (vr & Hvr & Hr).
  destruct (series_get_zero daily "snowfall_sum" _ i g1 Hwf Hi) as (vs & Hvs & Hs).
  assert (Hdir : exists d,
             (match series_entry daily "winddirection_10m_dominant" i with
              | Some d => ret d
              | None => do k <~ randint 0 359 ; ret (inject_Z k)
              end) g = (Returned d, g1) /\
             match series_entry daily "winddirection_10m_dominant" i with
             | Some d' => d = d'
             | None => exists k : Z, 0 <= k <= 359 /\ d = inject_Z k
             end).
  { unfold g1. destruct (series_entry daily "winddirection_10m_dominant" i) as [d|].
    - exists d. split; reflexivity.
    - eexists. split; [reflexivity|].
      eexists. split; [|reflexivity].
      pose proof (Z.mod_pos_bound (tape_int g (pos g)) (359 - 0 + 1) ltac:(lia)). lia. }
  destruct Hdir as (d & Hd & Hdspec).
  erewrite bind_returned; [|exact Hd].
  erewrite bind_returned; [|exact Hvp].
  erewrite bind_returned; [|exact Hvr].
  erewrite bind_returned; [|exact Hvs].
  eexists _, g1. split; [reflexivity|].
  eexists. split; [reflexivity|].
  unfold fetched_from; cbn [dw_date temperature temperature_min temperature_max feels_like
    humidity pressure wind_speed wind_direction weather_condition weather_description].
  rewrite Hmean, Hmin, Hmax.
  split; [exact Hday|]. do 3 (split; [reflexivity|]).
  split. { destruct (series_entry daily "apparent_temperature_max" i),
             (series_entry daily "apparent_temperature_min" i); reflexivity. }
  split. { destruct (series_entry daily "relative_humidity_2m_max" i),
             (series_entry daily "relative_humidity_2m_min" i); reflexivity. }
  split. { destruct (series_entry daily "pressure_msl_max" i),
             (series_entry daily "pressure_msl_min" i); reflexivity. }
  split. { destruct (series_entry daily "windspeed_10m_max" i); reflexivity. }
  split. { destruct (series_entry daily "winddirection_10m_dominant" i); exact Hdspec. }
  split.
  - apply get_weather_condition_compat; assumption.
  - apply get_weather_description_compat; assumption.
Qed.

Lemma fetch_loop_spec daily time_array :
  series_wf daily (length time_array) ->
  forall rest i daily_data g,
    (forall j day, rest !! j = Some day -> time_array !! (i + j)%nat = Some day) ->
    exists out g',
      fetch_loop daily time_array i rest daily_data g = (Returned (daily_data ++ out), g') /\
      Forall2 (fetched_from daily time_array) (kept_indices daily i (length rest)) out.
Proof.
  intros Hwf. induction rest as [|day rest IH]; intros i daily_data g Hrest.
  - exists [], g. rewrite app_nil_r. split; [reflexivity|constructor].
  - assert (Hday : time_array !! i = Some day).
    { rewrite <- (Nat.add_0_r i). apply Hrest. reflexivity. }
    assert (Hrest' : forall j d, rest !! j = Some d -> time_array !! (S i + j)%nat = Some d).
    { intros j d Hj. replace (S i + j)%nat with (i + S j)%nat by lia. apply Hrest. exact Hj. }
    destruct (fetch_day_spec daily time_array i day g Hwf Hday) as (res & g1 & Hrun & Hres).
    simpl fetch_loop. rewrite (bind_returned _ _ _ _ _ Hrun).
    unfold kept_indices. simpl length. simpl seq. simpl List.filter.
    destruct (has_temperatures daily i).
    + destruct Hres as (r & -> & Hr).
      destruct (IH (S i) (daily_data ++ [r]) g1 Hrest') as (out & g2 & Hloop & Hall).
      exists (r :: out), g2. rewrite Hloop, <- app_assoc.
      split; [reflexivity|]. constructor; assumption.
    + subst res.
      destruct (IH (S i) daily_data g1 Hrest') as (out & g2 & Hloop & Hall).
      exists out, g2. split; assumption.
Qed.




(** ** Fallback to the generator *)

Lemma keeps_ret {A} (a : A) : keeps_tape (ret a).
Proof. intros g Hg. exact Hg. Qed.

Lemma keeps_raise {A} : keeps_tape (@raise A).
Proof. intros g Hg. exact Hg. Qed.

Lemma keeps_bind {A B} (m : M A) (k : A -> M B) :
  keeps_tape m -> (forall a, keeps_tape (k a)) -> keeps_tape (bind m k).
Proof.
  intros Hm Hk g Hg. unfold bind. specialize (Hm g Hg).
  destruct (m g) as [[a| |] g1]; simpl in *; [apply Hk|..]; assumption.
Qed.

Lemma keeps_randint a b : keeps_tape (randint a b).
Proof. intros g Hg. apply rng_ok_advance. exact Hg. Qed.

Lemma keeps_series_get daily key dflt n i : keeps_tape (series_get daily key dflt n i).
Proof.
  intros g Hg. unfold series_get.
  destruct (default _ _ !! i); exact Hg.
Qed.

Ltac keeps_tape_step :=
  first
    [ apply keeps_ret
    | apply keeps_raise
    | apply keeps_series_get
    | apply keeps_randint
    | apply keeps_bind; [|intros ?]
    | match goal with
      | |- keeps_tape (match ?x with _ => _ end) => destruct x
      end ].

Lemma keeps_fetch_day daily time_array i day :
  keeps_tape (fetch_day daily time_array i day).
Proof. unfold fetch_day. repeat keeps_tape_step. Qed.

Lemma keeps_fetch_loop daily time_array rest :
  forall i daily_data, keeps_tape (fetch_loop daily time_array i rest daily_data).
Proof.
  induction rest as [|day rest IH]; intros i daily_data; simpl.
  - apply keeps_ret.
  - apply keeps_bind; [apply keeps_fetch_day|].
    intros [r|]; apply IH.
Qed.

Lemma keeps_fetch_body reply : keeps_tape (fetch_body reply).
Proof.
  unfold fetch_body. destruct reply as [|data_daily]; [apply keeps_raise|].
  destruct (negb (daily_truthy data_daily)); [apply keeps_ret|].
  destruct data_daily as [daily|]; [|apply keeps_raise].
  destruct (time daily); [apply keeps_fetch_loop|apply keeps_raise].
Qed.




(** ** Grouping and ordering by count *)

Lemma group_size_bump_same c groups :
  group_size c (bump c groups) = S (group_size c groups).
Proof.
  induction groups as [|[c' n] groups IH]; simpl.
  - rewrite String.eqb_refl. reflexivity.
  - destruct (String.eqb c c') eqn:Hc; simpl; rewrite Hc; [reflexivity|exact IH].
Qed.

Lemma group_size_bump_other c c' groups :
  c <> c' -> group_size c (bump c' groups) = group_size c groups.
Proof.
  intros Hne. induction groups as [|[c'' n] groups IH]; simpl.
  - apply String.eqb_neq in Hne. rewrite Hne. reflexivity.
  - destruct (String.eqb c' c'') eqn:Hc'; simpl.
    + apply String.eqb_eq in Hc'. subst c''.
      apply String.eqb_neq in Hne. rewrite Hne. reflexivity.
    + rewrite IH. reflexivity.
Qed.

Lemma bump_keys c groups :
  NoDup (map fst groups) ->
  NoDup (map fst (bump c groups)) /\
  (forall k, k ∈ map fst (bump c groups) <-> k = c \/ k ∈ map fst groups).
Proof.
  induction groups as [|[c' n] groups IH]; simpl; intros Hnd.
  - split; [repeat constructor; set_solver|set_solver].
  - apply NoDup_cons in Hnd as [Hnotin Hnd]. specialize (IH Hnd) as [IH1 IH2].
    destruct (String.eqb c c') eqn:Hc; simpl.
    + apply String.eqb_eq in Hc. subst c'.
      split; [apply NoDup_cons; split; assumption|].
      intros k. rewrite !elem_of_cons. tauto.
    + split.
      * apply NoDup_cons. split; [|exact IH1].
        rewrite IH2. intros [->|Hin]; [|contradiction].
        rewrite String.eqb_refl in Hc. discriminate.
      * intros k. rewrite !elem_of_cons, IH2. tauto.
Qed.

Lemma group_size_of_member c n groups :
  NoDup (map fst groups) -> (c, n) ∈ groups -> group_size c groups = n.
Proof.
  induction groups as [|[c' n'] groups IH]; simpl; intros Hnd Hin.
  - set_solver.
  - apply NoDup_cons in Hnd as [Hnotin Hnd].
    apply elem_of_cons in Hin as [Heq|Hin].
    + inversion Heq; subst. rewrite String.eqb_refl. reflexivity.
    + destruct (String.eqb c c') eqn:Hc; [|apply IH; assumption].
      apply String.eqb_eq in Hc. subst c'. exfalso. apply Hnotin.
      apply list_elem_of_fmap. exists (c, n). split; [reflexivity|exact Hin].
Qed.

Lemma condition_count_cons c r rows :
  condition_count c (r :: rows)
  = ((if String.eqb (weather_condition (wd_day r)) c then 1 else 0)
     + condition_count c rows)%nat.
Proof.
  unfold condition_count. simpl.
  destruct (String.eqb (weather_condition (wd_day r)) c); reflexivity.
Qed.

Lemma group_by_condition_spec rows :
  forall groups,
    NoDup (map fst groups) ->
    let result := fold_left (fun gs r => bump (weather_condition (wd_day r)) gs) rows groups in
    NoDup (map fst result) /\
    forall c, group_size c result = (group_size c groups + condition_count c rows)%nat.
Proof.
  induction rows as [|r rows IH]; intros groups Hnd; simpl.
  - split; [exact Hnd|]. intros c. unfold condition_count. simpl. lia.
  - destruct (bump_keys (weather_condition (wd_day r)) groups Hnd) as [Hnd' _].
    destruct (IH _ Hnd') as [IH1 IH2]. split; [exact IH1|].
    intros c. rewrite IH2, condition_count_cons.
    destruct (String.eqb (weather_condition (wd_day r)) c) eqn:Hc.
    + apply String.eqb_eq in Hc. subst c. rewrite group_size_bump_same. lia.
    + apply String.eqb_neq in Hc.
      rewrite group_size_bump_other by congruence. lia.
Qed.

Lemma group_by_condition_member rows c n :
  (c, n) ∈ group_by_condition rows -> n = condition_count c rows.
Proof.
  intros Hin. unfold group_by_condition in *.
  destruct (group_by_condition_spec rows [] (NoDup_nil_2)) as [Hnd Hsize].
  cbv zeta in *. rewrite <- (group_size_of_member _ _ _ Hnd Hin), Hsize.
  reflexivity.
Qed.

Lemma group_by_condition_complete rows c :
  (0 < condition_count c rows)%nat ->
  (c, condition_count c rows) ∈ group_by_condition rows.
Proof.
  intros Hpos. unfold group_by_condition.
  destruct (group_by_condition_spec rows [] (NoDup_nil_2)) as [Hnd Hsize].
  cbv zeta in *. specialize (Hsize c). simpl in Hsize. rewrite <- Hsize.
  rewrite <- Hsize in Hpos. clear Hsize Hnd.
  induction (fold_left _ rows []) as [|[c' n] groups IH]; simpl in *; [lia|].
  destruct (String.eqb c c') eqn:Hc.
  - apply String.eqb_eq in Hc. subst c'. left.
  - right. apply IH. exact Hpos.
Qed.

Lemma insert_by_count_head a l x :
  head (insert_by_count a l) = Some x ->
  (x = a \/ head l = Some x) /\
  (snd a <= snd x)%nat /\
  (forall y, head l = Some y -> (snd y <= snd x)%nat).
Proof.
  destruct l as [|y l]; simpl.
  - intros [= <-]. split; [left; reflexivity|]. split; [lia|discriminate].
  - destruct (snd y <? snd a)%nat eqn:Hlt; simpl; intros [= <-].
    + apply Nat.ltb_lt in Hlt. split; [left; reflexivity|].
      split; [lia|]. intros ? [= <-]. lia.
    + apply Nat.ltb_ge in Hlt. split; [right; reflexivity|].
      split; [lia|]. intros ? [= <-]. lia.
Qed.

Lemma insert_by_count_nonempty a l : insert_by_count a l <> [].
Proof. destruct l as [|y l]; simpl; [|destruct (_ <? _)%nat]; discriminate. Qed.

Lemma order_by_count_desc_head l x :
  head (order_by_count_desc l) = Some x ->
  x ∈ l /\ forall y, y ∈ l -> (snd y <= snd x)%nat.
Proof.
  revert x. induction l as [|a l IH]; simpl; intros x Hx; [discriminate|].
  apply insert_by_count_head in Hx as ([->|Hhead] & Ha & Hrest).
  - split; [left|]. intros y Hy.
    apply elem_of_cons in Hy as [->|Hy]; [lia|].
    destruct (head (order_by_count_desc l)) as [z|] eqn:Hz.
    + destruct (IH z eq_refl) as [_ Hmax]. specialize (Hmax y Hy).
      specialize (Hrest z eq_refl). lia.
    + destruct l as [|b l]; [set_solver|].
      simpl in Hz. destruct (insert_by_count_nonempty b (order_by_count_desc l)).
      destruct (insert_by_count b (order_by_count_desc l)); [reflexivity|discriminate].
  - destruct (IH x Hhead) as [Hin Hmax]. split; [right; exact Hin|].
    intros y Hy. apply elem_of_cons in Hy as [->|Hy]; [exact Ha|apply Hmax; exact Hy].
Qed.

Lemma order_by_count_desc_nonempty l :
  l <> [] -> exists x, head (order_by_count_desc l) = Some x.
Proof.
  destruct l as [|a l]; [congruence|]. intros _. simpl.
  pose proof (insert_by_count_nonempty a (order_by_count_desc l)).
  destruct (insert_by_count a (order_by_count_desc l)) as [|x ?]; [congruence|].
  exists x. reflexivity.
Qed.

Lemma select_dominant_condition_spec s city_id start_date today :
  let rows := window_rows s city_id start_date today in
  rows <> [] ->
  exists c n,
    select_dominant_condition s city_id start_date today = Some (c, n) /\
    n = condition_count c rows /\
    (0 < n)%nat /\
    forall c', (condition_count c' rows <= n)%nat.
Proof.
  intros rows Hne. unfold select_dominant_condition. fold rows.
  assert (Hmember : forall c, (0 < condition_count c rows)%nat ->
                              (c, condition_count c rows) ∈ group_by_condition rows)
    by (intros c; apply group_by_condition_complete).
  assert (Hfirst : exists c0, (0 < condition_count c0 rows)%nat).
  { destruct rows as [|r rows']; [congruence|].
    exists (weather_condition (wd_day r)).
    rewrite condition_count_cons, String.eqb_refl. lia. }
  destruct Hfirst as [c0 Hc0].
  destruct (order_by_count_desc_nonempty (group_by_condition rows)) as [[c n] Hhead].
  { intros Hnil. specialize (Hmember c0 Hc0). rewrite Hnil in Hmember.
    apply elem_of_nil in Hmember. exact Hmember. }
  destruct (order_by_count_desc_head _ _ Hhead) as [Hin Hmax].
  exists c, n. split; [exact Hhead|].
  pose proof (group_by_condition_member _ _ _ Hin) as Hn.
  split; [exact Hn|].
  assert (Hall : forall c', (condition_count c' rows <= n)%nat).
  { intros c'. destruct (Nat.eq_dec (condition_count c' rows) 0%nat) as [->|Hpos]; [lia|].
    apply (Hmax (c', condition_count c' rows)). apply Hmember. lia. }
  split; [|exact Hall]. specialize (Hall c0). lia.
Qed.

(** ** The statistics table *)

Lemma find_map_same_test {A} (P : A -> bool) (f : A -> A) (l : list A) :
  (forall x, P (f x) = P x) ->
  List.find P (map f l) = option_map f (List.find P l).
Proof.
  intros HP. induction l as [|x l IH]; simpl; [reflexivity|].
  rewrite HP. destruct (P x); [reflexivity|exact IH].
Qed.

Lemma find_snoc {A} (P : A -> bool) (l : list A) (x : A) :
  List.find P (l ++ [x])
  = match List.find P l with
    | Some y => Some y
    | None => if P x then Some x else None
    end.
Proof.
  induction l as [|y l IH]; simpl; [reflexivity|].
  destruct (P y); [reflexivity|exact IH].
Qed.

Lemma stats_key_is_true city_id d p r :
  stats_key_is city_id d p r = true <->
  ws_city_id r = city_id /\ stat_date r = d /\ period_days r = p.
Proof. unfold stats_key_is. rewrite !andb_true_iff, !Z.eqb_eq. tauto. Qed.

Lemma select_weather_stats_id_lookup s city_id today p :
  select_weather_stats_id s city_id today p = option_map ws_id (lookup_stat s city_id today p).
Proof.
  unfold select_weather_stats_id, lookup_stat.
  destruct (List.find _ _); reflexivity.
Qed.

Lemma avg_temp_none s city_id start_date today :
  avg_temp (select_stats s city_id start_date today) = None <->
  window_rows s city_id start_date today = [].
Proof.
  unfold select_stats, sql_avg, non_null, column. simpl.
  destruct (window_rows s city_id start_date today) as [|r rows]; simpl.
  - tauto.
  - split; discriminate.
Qed.

Lemma stats_for_period_weather_data city_id today s period :
  weather_data (stats_for_period city_id today s period) = weather_data s.
Proof.
  destruct period as [p start_date]. unfold stats_for_period.
  destruct (avg_temp _); [|reflexivity].
  destruct (select_weather_stats_id _ _ _ _); reflexivity.
Qed.

Lemma stats_for_period_empty city_id today s p start_date :
  window_rows s city_id start_date today = [] ->
  stats_for_period city_id today s (p, start_date) = s.
Proof.
  intros Hrows. apply avg_temp_none in Hrows.
  unfold stats_for_period. rewrite Hrows. reflexivity.
Qed.

Lemma lookup_stat_find s city_id d p :
  lookup_stat s city_id d p = List.find (stats_key_is city_id d p) (weather_stats s).
Proof. reflexivity. Qed.

Lemma stats_for_period_emits city_id today s p start_date :
  window_rows s city_id start_date today <> [] ->
  exists row,
    lookup_stat (stats_for_period city_id today s (p, start_date)) city_id today p = Some row /\
    row = stats_columns (ws_id row) city_id today p
            (select_stats s city_id start_date today)
            (dominant_of s city_id start_date today).
Proof.
  intros Hrows. unfold stats_for_period.
  destruct (avg_temp (select_stats s city_id start_date today)) as [a|] eqn:Havg;
    [|apply avg_temp_none in Havg; contradiction].
  rewrite select_weather_stats_id_lookup. fold (dominant_of s city_id start_date today).
  rewrite !lookup_stat_find.
  destruct (List.find (stats_key_is city_id today p) (weather_stats s)) as [r0|] eqn:Hfind.
  - simpl option_map. cbv iota.
    unfold update_weather_stats. simpl weather_stats.
    rewrite find_map_same_test.
    + rewrite Hfind. simpl. rewrite Z.eqb_refl.
      apply find_some in Hfind as [_ Hkey].
      apply stats_key_is_true in Hkey as (-> & -> & ->).
      eexists. split; reflexivity.
    + intros x. destruct (ws_id x =? ws_id r0); reflexivity.
  - simpl option_map. cbv iota.
    unfold insert_weather_stats. simpl weather_stats.
    rewrite find_snoc, Hfind.
    unfold stats_key_is at 1. simpl. rewrite !Z.eqb_refl. simpl.
    eexists. split; reflexivity.
Qed.

Lemma NoDup_map_eq {A B} (f : A -> B) (l : list A) x y :
  NoDup (map f l) -> In x l -> In y l -> f x = f y -> x = y.
Proof.
  induction l as [|a l IH]; simpl; intros Hnd Hx Hy Hf; [contradiction|].
  apply NoDup_cons in Hnd as [Hnotin Hnd].
  destruct Hx as [->|Hx], Hy as [->|Hy]; auto.
  - exfalso. apply Hnotin. rewrite Hf. apply list_elem_of_In, in_map, Hy.
  - exfalso. apply Hnotin. rewrite <- Hf. apply list_elem_of_In, in_map, Hx.
Qed.

Lemma stats_for_period_other city_id today s p start_date p' :
  stats_ids_ok s -> p' <> p ->
  lookup_stat (stats_for_period city_id today s (p, start_date)) city_id today p'
  = lookup_stat s city_id today p'.
Proof.
  intros [Hnd _] Hp. unfold stats_for_period.
  destruct (avg_temp _); [|reflexivity].
  rewrite select_weather_stats_id_lookup, !lookup_stat_find.
  destruct (List.find (stats_key_is city_id today p) (weather_stats s)) as [r0|] eqn:Hfind.
  - simpl option_map. cbv iota. unfold update_weather_stats. simpl weather_stats.
    rewrite find_map_same_test
      by (intros x; destruct (ws_id x =? ws_id r0); reflexivity).
    destruct (List.find (stats_key_is city_id today p') (weather_stats s)) as [r1|] eqn:Hfind';
      [|reflexivity].
    simpl. destruct (ws_id r1 =? ws_id r0) eqn:Hid; [|reflexivity].
    apply Z.eqb_eq in Hid.
    apply find_some in Hfind as [Hin0 Hkey0]. apply find_some in Hfind' as [Hin1 Hkey1].
    pose proof (NoDup_map_eq ws_id _ _ _ Hnd Hin1 Hin0 Hid) as ->.
    apply stats_key_is_true in Hkey0 as (_ & _ & Hp0).
    apply stats_key_is_true in Hkey1 as (_ & _ & Hp1). congruence.
  - simpl option_map. cbv iota. unfold insert_weather_stats. simpl weather_stats.
    rewrite find_snoc.
    destruct (List.find (stats_key_is city_id today p') (weather_stats s)); [reflexivity|].
    unfold stats_key_is. simpl.
    destruct (p =? p') eqn:Hpp; [apply Z.eqb_eq in Hpp; congruence|].
    rewrite andb_false_r. reflexivity.
Qed.

Lemma stats_for_period_ids_ok city_id today s period :
  stats_ids_ok s -> stats_ids_ok (stats_for_period city_id today s period).
Proof.
  intros [Hnd Hlt]. destruct period as [p start_date]. unfold stats_for_period.
  destruct (avg_temp _); [|split; assumption].
  destruct (select_weather_stats_id s city_id today p) as [id|];
    unfold stats_ids_ok, update_weather_stats, insert_weather_stats; simpl.
  - assert (Hids : forall l : list WeatherStatsRow,
               map ws_id
                 (map (fun r => if ws_id r =? id
                                then stats_columns (ws_id r) (ws_city_id r) (stat_date r)
                                       (period_days r) (select_stats s city_id start_date today)
                                       (match select_dominant_condition s city_id start_date today with
                                        | Some condition_result => fst condition_result
                                        | None => "Unknown"
                                        end)
                                else r) l)
               = map ws_id l).
    { intros l. rewrite map_map. apply map_ext. intros r.
      destruct (ws_id r =? id); reflexivity. }
    split; [rewrite Hids; exact Hnd|].
    apply Forall_map. apply (Forall_map ws_id (fun i => i < weather_stats_next s)) in Hlt.
    rewrite <- (Hids (weather_stats s)) in Hlt. rewrite map_map in Hlt.
    apply Forall_map in Hlt. exact Hlt.
  - split.
    + rewrite map_app. simpl. apply NoDup_app. split; [exact Hnd|].
      split; [|repeat constructor; set_solver].
      intros i Hi Hi'. apply list_elem_of_singleton in Hi'. subst i.
      apply list_elem_of_fmap in Hi as (r & Hr & Hin).
      rewrite Forall_forall in Hlt. specialize (Hlt r Hin). lia.
    + apply Forall_app. split.
      * eapply Forall_impl; [exact Hlt|]. intros r Hr. simpl in Hr. lia.
      * repeat constructor. simpl. lia.
Qed.

Lemma calculate_weather_stats_eq s city_id today :
  calculate_weather_stats s city_id today
  = stats_for_period city_id today
      (stats_for_period city_id today s (7, today - 7)) (30, today - 30).
Proof. reflexivity. Qed.

(** The statistics stored by a run for the period [p]. *)
Lemma calculate_weather_stats_lookup s city_id today p :
  stats_ids_ok s -> p = 7 \/ p = 30 ->
  let s' := calculate_weather_stats s city_id today in
  (window_rows s city_id (today - p) today = [] ->
   lookup_stat s' city_id today p = lookup_stat s city_id today p) /\
  (window_rows s city_id (today - p) today <> [] ->
   exists row, lookup_stat s' city_id today p = Some row /\
               expected_row s city_id today p row).
Proof.
  intros Hok Hp. rewrite calculate_weather_stats_eq. cbv zeta.
  set (s1 := stats_for_period city_id today s (7, today - 7)).
  assert (Hok1 : stats_ids_ok s1) by (apply stats_for_period_ids_ok; exact Hok).
  assert (Hdata : weather_data s1 = weather_data s)
    by apply stats_for_period_weather_data.
  assert (Hrows : forall start_date,
             window_rows s1 city_id start_date today = window_rows s city_id start_date today).
  { intros start_date. unfold window_rows. rewrite Hdata. reflexivity. }
  destruct Hp as [-> | ->].
  - rewrite (stats_for_period_other _ _ s1 30 _ 7 Hok1) by lia. split.
    + intros Hempty. unfold s1. rewrite stats_for_period_empty by exact Hempty. reflexivity.
    + intros Hne. apply stats_for_period_emits. exact Hne.
  - split.
    + intros Hempty. rewrite stats_for_period_empty by (rewrite Hrows; exact Hempty).
      unfold s1. apply stats_for_period_other; [exact Hok|lia].
    + intros Hne.
      destruct (stats_for_period_emits city_id today s1 30 (today - 30)) as (row & Hrow & Hexp);
        [rewrite Hrows; exact Hne|].
      exists row. split; [exact Hrow|].
      unfold expected_row. rewrite Hexp at 1. simpl ws_id.
      unfold select_stats, dominant_of, select_dominant_condition. rewrite !Hrows.
      reflexivity.
Qed.

(** ** Aggregates *)

Lemma fold_left_Qmin_lower xs :
  forall x, (fold_left Qmin xs x <= x)%Q /\ Forall (fun y => (fold_left Qmin xs x <= y)%Q) xs.
Proof.
  induction xs as [|y xs IH]; intros x; simpl.
  - split; [apply Qle_refl|constructor].
  - destruct (IH (Qmin x y)) as [H1 H2].
    pose proof (Q.le_min_l x y). pose proof (Q.le_min_r x y).
    split; [lra|]. constructor; [lra|exact H2].
Qed.

Lemma fold_left_Qmin_attained xs :
  forall x, Exists (fun y => (y == fold_left Qmin xs x)%Q) (x :: xs).
Proof.
  induction xs as [|y xs IH]; intros x; simpl.
  - left. reflexivity.
  - specialize (IH (Qmin x y)). apply Exists_cons in IH as [Hm|Hrest].
    + destruct (Q.min_spec x y) as [[_ Heq]|[_ Heq]].
      * left. etransitivity; [symmetry; exact Heq|exact Hm].
      * right. left. etransitivity; [symmetry; exact Heq|exact Hm].
    + right. right. exact Hrest.
Qed.

Lemma fold_left_Qmax_upper xs :
  forall x, (x <= fold_left Qmax xs x)%Q /\ Forall (fun y => (y <= fold_left Qmax xs x)%Q) xs.
Proof.
  induction xs as [|y xs IH]; intros x; simpl.
  - split; [apply Qle_refl|constructor].
  - destruct (IH (Qmax x y)) as [H1 H2].
    pose proof (Q.le_max_l x y). pose proof (Q.le_max_r x y).
    split; [lra|]. constructor; [lra|exact H2].
Qed.

Lemma fold_left_Qmax_attained xs :
  forall x, Exists (fun y => (y == fold_left Qmax xs x)%Q) (x :: xs).
Proof.
  induction xs as [|y xs IH]; intros x; simpl.
  - left. reflexivity.
  - specialize (IH (Qmax x y)). apply Exists_cons in IH as [Hm|Hrest].
    + destruct (Q.max_spec x y) as [[_ Heq]|[_ Heq]].
      * right. left. etransitivity; [symmetry; exact Heq|exact Hm].
      * left. etransitivity; [symmetry; exact Heq|exact Hm].
    + right. right. exact Hrest.
Qed.

Lemma non_null_map_Some {A} (xs : list A) : non_null (map Some xs) = xs.
Proof.
  unfold non_null. induction xs as [|x xs IH]; simpl; [reflexivity|].
  f_equal. exact IH.
Qed.

(** MIN over a column without NULLs is a least value of the column. *)
Lemma sql_min_spec (xs : list Q) :
  xs <> [] ->
  exists m, sql_min (map Some xs) = Some m /\
            Forall (fun y => (m <= y)%Q) xs /\ Exists (fun y => (y == m)%Q) xs.
Proof.
  intros Hne. unfold sql_min. rewrite non_null_map_Some.
  destruct xs as [|x xs]; [congruence|].
  exists (fold_left Qmin xs x). split; [reflexivity|].
  destruct (fold_left_Qmin_lower xs x) as [H1 H2].
  split; [constructor; assumption|apply fold_left_Qmin_attained].
Qed.

(** MAX over a column without NULLs is a greatest value of the column. *)
Lemma sql_max_spec (xs : list Q) :
  xs <> [] ->
  exists m, sql_max (map Some xs) = Some m /\
            Forall (fun y => (y <= m)%Q) xs /\ Exists (fun y => (y == m)%Q) xs.
Proof.
  intros Hne. unfold sql_max. rewrite non_null_map_Some.
  destruct xs as [|x xs]; [congruence|].
  exists (fold_left Qmax xs x). split; [reflexivity|].
  destruct (fold_left_Qmax_upper xs x) as [H1 H2].
  split; [constructor; assumption|apply fold_left_Qmax_attained].
Qed.

(** AVG over a column without NULLs is its sum over its length. *)
Lemma sql_avg_spec (xs : list Q) :
  xs <> [] ->
  sql_avg (map Some xs) = Some (Qsum xs / inject_Z (Z.of_nat (length xs)))%Q.
Proof.
  intros Hne. unfold sql_avg. rewrite non_null_map_Some.
  destruct xs; [congruence|reflexivity].
Qed.

Lemma window_rows_spec s city_id start_date today r :
  In r (window_rows s city_id start_date today) <->
  In r (weather_data s) /\ wd_city_id r = city_id /\
  start_date <= dw_date (wd_day r) <= today.
Proof.
  unfold window_rows, in_window. rewrite filter_In, !andb_true_iff, Z.eqb_eq, !Z.leb_le.
  tauto.
Qed.

Lemma condition_count_three c1 c2 c3 rows :
  c1 <> c2 -> c1 <> c3 -> c2 <> c3 ->
  (condition_count c1 rows + condition_count c2 rows + condition_count c3 rows
   <= length rows)%nat.
Proof.
  intros H12 H13 H23. induction rows as [|r rows IH]; [unfold condition_count; simpl; lia|].
  rewrite !condition_count_cons. simpl length.
  destruct (String.eqb (weather_condition (wd_day r)) c1) eqn:E1;
    destruct (String.eqb (weather_condition (wd_day r)) c2) eqn:E2;
    destruct (String.eqb (weather_condition (wd_day r)) c3) eqn:E3;
    try apply String.eqb_eq in E1; try apply String.eqb_eq in E2;
    try apply String.eqb_eq in E3; try congruence; lia.
Qed.

(** ** The Period Aggregator *)


Lemma sample_store_ids_ok : stats_ids_ok sample_store.
Proof.
  split; simpl.
  - apply NoDup_cons. split; [apply not_elem_of_nil|apply NoDup_nil_2].
  - repeat constructor.
Qed.


(** C7: when the window of a period holds at least one row, the stored
    dominant_condition is a condition occurring in the window whose number of
    rows is the largest one; with counts Clear 3, Rain 5, Snow 2 (ten rows in
    all) it is "Rain". *)
Theorem C7_dominant_condition_is_most_frequent
    (s : Store) (city_id : Z) (today : date) (p : Z) :
  stats_ids_ok s -> p = 7 \/ p = 30 ->
  let rows := window_rows s city_id (today - p) today in
  rows <> [] ->
  exists row,
    lookup_stat (calculate_weather_stats s city_id today) city_id today p = Some row /\
    (0 < condition_count (dominant_condition row) rows)%nat /\
    (forall c, (condition_count c rows <= condition_count (dominant_condition row) rows)%nat) /\
    (condition_count "Clear" rows = 3%nat ->
     condition_count "Rain" rows = 5%nat ->
     condition_count "Snow" rows = 2%nat ->
     length rows = 10%nat ->
     dominant_condition row = "Rain").
Proof.
  intros Hok Hp rows Hne.
  destruct (calculate_weather_stats_lookup s city_id today p Hok Hp) as [_ Hemit].
  destruct (Hemit Hne) as (row & Hrow & Hexp).
  exists row. split; [exact Hrow|].
  destruct (select_dominant_condition_spec s city_id (today - p) today Hne)
    as (c & n & Hsel & Hn & Hpos & Hmax).
  fold rows in Hn, Hmax.
  assert (Hdom : dominant_condition row = c).
  { unfold expected_row in Hexp. rewrite Hexp. simpl.
    unfold dominant_of. rewrite Hsel. reflexivity. }
  rewrite Hdom, <- Hn.
  split; [exact Hpos|]. split; [exact Hmax|].
  intros Hclear Hrain Hsnow Hlen.
  destruct (String.string_dec c "Rain") as [Hc|Hc]; [exact Hc|exfalso].
  pose proof (Hmax "Rain") as Hr. rewrite Hrain in Hr.
  destruct (String.string_dec c "Clear") as [Hc'|Hc'].
  - rewrite Hc' in Hn. lia.
  - pose proof (condition_count_three c "Rain" "Clear" rows Hc Hc' ltac:(discriminate)).
    lia.
Qed.

Lemma condition_store_ids_ok : stats_ids_ok condition_store.
Proof. split; simpl; constructor. Qed.

Lemma C7_dominant_condition_is_most_frequent_witness :
  exists row,
    lookup_stat (calculate_weather_stats condition_store 1 1000) 1 1000 30 = Some row /\
    (0 < condition_count (dominant_condition row)
           (window_rows condition_store 1 (1000 - 30)%Z 1000%Z))%nat /\
    (forall c, (condition_count c (window_rows condition_store 1 (1000 - 30)%Z 1000%Z)
                <= condition_count (dominant_condition row)
                     (window_rows condition_store 1 (1000 - 30)%Z 1000%Z))%nat) /\
    (condition_count "Clear" (window_rows condition_store 1 (1000 - 30)%Z 1000%Z) = 3%nat ->
     condition_count "Rain" (window_rows condition_store 1 (1000 - 30)%Z 1000%Z) = 5%nat ->
     condition_count "Snow" (window_rows condition_store 1 (1000 - 30)%Z 1000%Z) = 2%nat ->
     length (window_rows condition_store 1 (1000 - 30)%Z 1000%Z) = 10%nat ->
     dominant_condition row = "Rain").
Proof.
  apply (C7_dominant_condition_is_most_frequent condition_store 1 1000 30).
  - exact condition_store_ids_ok.
  - right. reflexivity.
  - vm_compute. discriminate.
Defined.

(** The fixture of C7, evaluated. *)
Example dominant_condition_fixture :
  option_map dominant_condition
    (lookup_stat (calculate_weather_stats condition_store 1 1000) 1 1000 30)
  = Some "Rain" /\
  group_by_condition (window_rows condition_store 1 (1000 - 30) 1000)
  = [("Clear", 3%nat); ("Rain", 5%nat); ("Snow", 2%nat)].
Proof. split; vm_compute; reflexivity. Qed.

(** The fixture of C6, evaluated: the 7-day window of city 1 in
    [sample_store] holds the temperatures 10, 20, 30, and the 30-day
    statistic is recomputed in place. *)
Example temperature_fixture :
  let s' := calculate_weather_stats sample_store 1 1000 in
  option_map (fun row => (avg_temperature row, min_temperature row, max_temperature row))
    (lookup_stat s' 1 1000 7)
  = Some (Some (60 # 3), Some 10, Some 30)%Q /\
  length (weather_stats s') = 2%nat.
Proof. split; vm_compute; reflexivity. Qed.

(** ** Upserts and keys *)

Lemma find_key_none {A K} (key : A -> K) (P : A -> bool) (k : K) (l : list A) :
  (forall x, P x = true <-> key x = k) ->
  (List.find P l = None <-> k ∉ map key l).
Proof.
  intros HP. induction l as [|x l IH]; simpl.
  - split; [intros _; apply not_elem_of_nil|reflexivity].
  - rewrite not_elem_of_cons. destruct (P x) eqn:Hx.
    + apply HP in Hx. split; [discriminate|]. intros [Hne _]. congruence.
    + rewrite IH. split; [|tauto]. intros Hnotin. split; [|exact Hnotin].
      intros ->. assert (P x = true) by (apply HP; reflexivity). congruence.
Qed.

Lemma weather_data_key_test city_id d r :
  (wd_city_id r =? city_id) && (dw_date (wd_day r) =? d) = true <->
  weather_data_key r = (city_id, d).
Proof.
  unfold weather_data_key. rewrite andb_true_iff, !Z.eqb_eq.
  split; [intros [-> ->]; reflexivity|intros [= -> ->]; auto].
Qed.

Lemma weather_stats_key_test city_id d p r :
  stats_key_is city_id d p r = true <-> weather_stats_key r = (city_id, d, p).
Proof.
  rewrite stats_key_is_true. unfold weather_stats_key.
  split; [intros (-> & -> & ->); reflexivity|intros [= -> -> ->]; auto].
Qed.

Lemma upsert_weather_data_stats city_id s daily_data :
  weather_stats (upsert_weather_data city_id s daily_data) = weather_stats s /\
  weather_stats_next (upsert_weather_data city_id s daily_data) = weather_stats_next s.
Proof.
  unfold upsert_weather_data.
  destruct (select_weather_data_id _ _ _); split; reflexivity.
Qed.

(** An upsert of [weather_data] updates in place when the key is stored and
    appends the key otherwise. *)
Lemma upsert_weather_data_keys city_id s daily_data :
  let k := (city_id, dw_date daily_data) in
  let keys := map weather_data_key (weather_data s) in
  map weather_data_key (weather_data (upsert_weather_data city_id s daily_data))
  = if decide (k ∈ keys) then keys else keys ++ [k].
Proof.
  cbv zeta. unfold upsert_weather_data, select_weather_data_id.
  pose proof (find_key_none weather_data_key
                (fun r => (wd_city_id r =? city_id) && (dw_date (wd_day r) =? dw_date daily_data))
                (city_id, dw_date daily_data) (weather_data s)
                (weather_data_key_test city_id (dw_date daily_data))) as Hnone.
  destruct (List.find _ (weather_data s)) as [r0|].
  - destruct (decide _) as [_|Hnotin]; [|apply Hnone in Hnotin; discriminate].
    unfold update_weather_data. simpl. rewrite map_map. apply map_ext.
    intros r. destruct (wd_id r =? wd_id r0); reflexivity.
  - destruct (decide _) as [Hin|_]; [exfalso; apply Hnone in Hin; [exact Hin|reflexivity]|].
    unfold insert_weather_data. simpl. rewrite map_app. reflexivity.
Qed.

Lemma fold_upsert_stats city_id weather_data_in :
  forall s,
    weather_stats (fold_left (upsert_weather_data city_id) weather_data_in s) = weather_stats s /\
    weather_stats_next (fold_left (upsert_weather_data city_id) weather_data_in s)
    = weather_stats_next s.
Proof.
  induction weather_data_in as [|d ds IH]; intros s; simpl; [split; reflexivity|].
  destruct (IH (upsert_weather_data city_id s d)) as [-> ->].
  apply upsert_weather_data_stats.
Qed.

Lemma fold_upsert_keys city_id weather_data_in :
  forall s,
    let keys := map weather_data_key (weather_data s) in
    let keys' := map weather_data_key
                   (weather_data (fold_left (upsert_weather_data city_id) weather_data_in s)) in
    (NoDup keys -> NoDup keys') /\
    (forall k, k ∈ keys -> k ∈ keys') /\
    (forall d, d ∈ weather_data_in -> (city_id, dw_date d) ∈ keys') /\
    ((forall d, d ∈ weather_data_in -> (city_id, dw_date d) ∈ keys) -> keys' = keys).
Proof.
  induction weather_data_in as [|d ds IH]; intros s; cbv zeta; simpl.
  - repeat split; auto. intros d Hd. apply elem_of_nil in Hd. contradiction.
  - specialize (IH (upsert_weather_data city_id s d)). cbv zeta in IH.
    destruct IH as (IHnd & IHmono & IHcover & IHfixed).
    pose proof (upsert_weather_data_keys city_id s d) as Hkeys. cbv zeta in Hkeys.
    destruct (decide ((city_id, dw_date d) ∈ map weather_data_key (weather_data s)))
      as [Hin|Hnotin].
    + rewrite Hkeys in *. repeat split; auto.
      * intros d' Hd'. apply elem_of_cons in Hd' as [->|Hd']; auto.
      * intros Hall. apply IHfixed. intros d' Hd'. apply Hall. right. exact Hd'.
    + rewrite Hkeys in *. repeat split.
      * intros Hnd. apply IHnd. apply NoDup_app. split; [exact Hnd|].
        split; [|apply NoDup_singleton].
        intros k Hk Hk'. apply list_elem_of_singleton in Hk'. subst k. contradiction.
      * intros k Hk. apply IHmono. apply elem_of_app. left. exact Hk.
      * intros d' Hd'. apply elem_of_cons in Hd' as [->|Hd']; auto.
        apply IHmono. apply elem_of_app. right. left.
      * intros Hall. exfalso. apply Hnotin. apply Hall. left.
Qed.

Lemma in_window_key city_id start_date today r :
  in_window city_id start_date today r
  = (let k := weather_data_key r in
     (fst k =? city_id) && (start_date <=? snd k) && (snd k <=? today)).
Proof. reflexivity. Qed.

Lemma window_rows_empty_keys sa sb city_id start_date today :
  map weather_data_key (weather_data sa) = map weather_data_key (weather_data sb) ->
  (window_rows sa city_id start_date today = [] <->
   window_rows sb city_id start_date today = []).
Proof.
  unfold window_rows. generalize (weather_data sa) (weather_data sb).
  induction l as [|a l IH]; intros [|b l'] Hkeys; cbn [List.filter map] in *;
    try discriminate; [tauto|].
  assert (Hab : weather_data_key a = weather_data_key b) by congruence.
  assert (Hrest : map weather_data_key l = map weather_data_key l') by congruence.
  rewrite !in_window_key. cbv zeta. rewrite Hab.
  destruct ((fst (weather_data_key b) =? city_id) && _ && _).
  - split; discriminate.
  - apply IH. exact Hrest.
Qed.

(** A statistics step leaves the table alone on an empty window, updates in
    place when the key is stored and appends the key otherwise. *)
Lemma stats_for_period_keys city_id today s p start_date :
  let k := (city_id, today, p) in
  let keys := map weather_stats_key (weather_stats s) in
  map weather_stats_key (weather_stats (stats_for_period city_id today s (p, start_date)))
  = if decide (window_rows s city_id start_date today = []) then keys
    else if decide (k ∈ keys) then keys else keys ++ [k].
Proof.
  cbv zeta. destruct (decide _) as [Hempty|Hne].
  - rewrite stats_for_period_empty by exact Hempty. reflexivity.
  - unfold stats_for_period.
    destruct (avg_temp _) eqn:Havg; [|apply avg_temp_none in Havg; contradiction].
    rewrite select_weather_stats_id_lookup, lookup_stat_find.
    pose proof (find_key_none weather_stats_key (stats_key_is city_id today p)
                  (city_id, today, p) (weather_stats s)
                  (weather_stats_key_test city_id today p)) as Hnone.
    destruct (List.find _ (weather_stats s)) as [r0|].
    + destruct (decide _) as [_|Hnotin]; [|apply Hnone in Hnotin; discriminate].
      simpl. rewrite map_map. apply map_ext.
      intros r. destruct (ws_id r =? ws_id r0); reflexivity.
    + destruct (decide _) as [Hin|_]; [exfalso; apply Hnone in Hin; [exact Hin|reflexivity]|].
      simpl. rewrite map_app. reflexivity.
Qed.

Lemma stats_for_period_keys_facts city_id today s p start_date :
  let keys := map weather_stats_key (weather_stats s) in
  let keys' := map weather_stats_key
                 (weather_stats (stats_for_period city_id today s (p, start_date))) in
  (NoDup keys -> NoDup keys') /\
  (forall k, k ∈ keys -> k ∈ keys') /\
  (window_rows s city_id start_date today <> [] -> (city_id, today, p) ∈ keys') /\
  ((window_rows s city_id start_date today <> [] -> (city_id, today, p) ∈ keys) ->
   keys' = keys).
Proof.
  cbv zeta. rewrite stats_for_period_keys.
  destruct (decide (window_rows s city_id start_date today = [])) as [Hempty|Hne].
  - repeat split; auto. intros H. contradiction.
  - destruct (decide _) as [Hin|Hnotin].
    + repeat split; auto.
    + repeat split.
      * intros Hnd. apply NoDup_app. split; [exact Hnd|].
        split; [|apply NoDup_singleton].
        intros k Hk Hk'. apply list_elem_of_singleton in Hk'. subst k. contradiction.
      * intros k Hk. apply elem_of_app. left. exact Hk.
      * intros _. apply elem_of_app. right. left.
      * intros Hall. exfalso. apply Hnotin. apply Hall. exact Hne.
Qed.

Lemma calculate_weather_stats_data s city_id today :
  weather_data (calculate_weather_stats s city_id today) = weather_data s.
Proof.
  rewrite calculate_weather_stats_eq, !stats_for_period_weather_data. reflexivity.
Qed.

Lemma calculate_weather_stats_keys s city_id today :
  let keys := map weather_stats_key (weather_stats s) in
  let keys' := map weather_stats_key
                 (weather_stats (calculate_weather_stats s city_id today)) in
  (NoDup keys -> NoDup keys') /\
  (forall p, p = 7 \/ p = 30 ->
             window_rows s city_id (today - p) today <> [] -> (city_id, today, p) ∈ keys') /\
  ((forall p, p = 7 \/ p = 30 ->
              window_rows s city_id (today - p) today <> [] -> (city_id, today, p) ∈ keys) ->
   keys' = keys).
Proof.
  cbv zeta. rewrite calculate_weather_stats_eq.
  set (s1 := stats_for_period city_id today s (7, today - 7)).
  destruct (stats_for_period_keys_facts city_id today s 7 (today - 7))
    as (Hnd1 & Hmono1 & Hcover1 & Hfixed1).
  destruct (stats_for_period_keys_facts city_id today s1 30 (today - 30))
    as (Hnd2 & Hmono2 & Hcover2 & Hfixed2).
  cbv zeta in *. fold s1 in Hnd1, Hmono1, Hcover1, Hfixed1.
  assert (Hrows : forall start_date,
             window_rows s1 city_id start_date today = window_rows s city_id start_date today).
  { intros start_date. unfold window_rows, s1.
    rewrite stats_for_period_weather_data. reflexivity. }
  rewrite Hrows in Hcover2, Hfixed2.
  split; [auto|]. split.
  - intros p [-> | ->] Hne; auto.
  - intros Hall.
    assert (H1 : map weather_stats_key (weather_stats s1)
                 = map weather_stats_key (weather_stats s))
      by (apply Hfixed1; intros Hne; apply Hall; auto).
    rewrite <- H1. apply Hfixed2. intros Hne. rewrite H1. apply Hall; auto.
Qed.

(** ** Idempotent ingestion *)

(** C4: on a store that satisfies the UNIQUE constraints, running the
    ingestion of a city twice with the same days leaves one row per
    (city_id, date) and one per (city_id, stat_date, period_days), and the
    second run changes neither table's keys nor its number of rows. *)
Theorem C4_ingest_twice_no_duplicates
    (s : Store) (city_id : Z) (today : date) (weather_data_in : list DailyWeather) :
  unique_keys s ->
  let s1 := ingest_city s city_id today weather_data_in in
  let s2 := ingest_city s1 city_id today weather_data_in in
  unique_keys s1 /\ unique_keys s2 /\
  map weather_data_key (weather_data s2) = map weather_data_key (weather_data s1) /\
  map weather_stats_key (weather_stats s2) = map weather_stats_key (weather_stats s1) /\
  length (weather_data s2) = length (weather_data s1) /\
  length (weather_stats s2) = length (weather_stats s1).
Proof.
  intros [Hdata Hstats] s1 s2.
  assert (Hkeys : unique_keys s1 /\
                  map weather_data_key (weather_data s2) = map weather_data_key (weather_data s1) /\
                  map weather_stats_key (weather_stats s2)
                  = map weather_stats_key (weather_stats s1)).
  { unfold s2, s1, ingest_city. destruct weather_data_in as [|d ds]; [repeat split; auto|].
    set (input := d :: ds).
    set (sa := fold_left (upsert_weather_data city_id) input s).
    set (sb := fold_left (upsert_weather_data city_id) input
                 (calculate_weather_stats sa city_id today)).
    destruct (fold_upsert_keys city_id input s) as (Hnd_a & _ & Hcover_a & _).
    destruct (fold_upsert_stats city_id input s) as [Hstats_a _].
    destruct (fold_upsert_keys city_id input (calculate_weather_stats sa city_id today))
      as (_ & _ & _ & Hfixed_b).
    destruct (fold_upsert_stats city_id input (calculate_weather_stats sa city_id today))
      as [Hstats_b _].
    cbv zeta in *. fold sa in Hnd_a, Hcover_a, Hstats_a. fold sb in Hfixed_b, Hstats_b.
    rewrite calculate_weather_stats_data in Hfixed_b.
    specialize (Hfixed_b Hcover_a).
    destruct (calculate_weather_stats_keys sa city_id today) as (Hnd_1 & Hcover_1 & _).
    destruct (calculate_weather_stats_keys sb city_id today) as (_ & _ & Hfixed_2).
    cbv zeta in *.
    split; [|split].
    - split.
      + rewrite calculate_weather_stats_data. apply Hnd_a. exact Hdata.
      + apply Hnd_1. rewrite Hstats_a. exact Hstats.
    - rewrite !calculate_weather_stats_data. exact Hfixed_b.
    - rewrite Hfixed_2; [rewrite Hstats_b; reflexivity|].
      intros p Hp Hne. rewrite Hstats_b. apply Hcover_1; [exact Hp|].
      intros Hempty. apply Hne.
      apply (window_rows_empty_keys sb sa); [exact Hfixed_b|exact Hempty]. }
  destruct Hkeys as (Hu1 & Hk1 & Hk2).
  split; [exact Hu1|]. split.
  - destruct Hu1 as [Hd1 Hs1]. split; [rewrite Hk1|rewrite Hk2]; assumption.
  - split; [exact Hk1|]. split; [exact Hk2|].
    split.
    + rewrite <- (length_map weather_data_key (weather_data s2)), Hk1. apply length_map.
    + rewrite <- (length_map weather_stats_key (weather_stats s2)), Hk2. apply length_map.
Qed.

Lemma sample_store_unique : unique_keys sample_store.
Proof. split; apply (bool_decide_unpack _); vm_compute; exact I. Qed.

Lemma C4_ingest_twice_no_duplicates_witness :
  let s1 := ingest_city sample_store 1 1000 sample_days in
  let s2 := ingest_city s1 1 1000 sample_days in
  unique_keys s1 /\ unique_keys s2 /\
  map weather_data_key (weather_data s2) = map weather_data_key (weather_data s1) /\
  map weather_stats_key (weather_stats s2) = map weather_stats_key (weather_stats s1) /\
  length (weather_data s2) = length (weather_data s1) /\
  length (weather_stats s2) = length (weather_stats s1).
Proof.
  apply (C4_ingest_twice_no_duplicates sample_store 1 1000 sample_days).
  exact sample_store_unique.
Defined.

(** The sample ingestion, evaluated: the first run adds two days and one
    statistic, the second run adds nothing. *)
Example ingest_twice_counts :
  let s1 := ingest_city sample_store 1 1000 sample_days in
  let s2 := ingest_city s1 1 1000 sample_days in
  (length (weather_data sample_store), length (weather_stats sample_store)) = (5, 1)%nat /\
  (length (weather_data s1), length (weather_stats s1)) = (7, 2)%nat /\
  (length (weather_data s2), length (weather_stats s2)) = (7, 2)%nat.
Proof. repeat split; vm_compute; reflexivity. Qed.

(** * Further properties of the code *)

(** ** Rounding commutes with shifts by whole tenths *)

Lemma Qfloor_unique (y : Q) (z : Z) :
  (inject_Z z <= y)%Q -> (y < inject_Z (z + 1))%Q -> Qfloor y = z.
Proof.
  intros Hle Hlt.
  pose proof (Qfloor_resp_le _ _ Hle) as H1. rewrite Qfloor_Z in H1.
  pose proof (Qfloor_le y) as H2.
  assert (H3 : (inject_Z (Qfloor y) < inject_Z (z + 1))%Q)
    by (eapply Qle_lt_trans; [exact H2|exact Hlt]).
  rewrite <- Zlt_Qlt in H3. lia.
Qed.

Lemma Qfloor_plus_Z (x : Q) (k : Z) : Qfloor (x + inject_Z k) = Qfloor x + k.
Proof.
  apply Qfloor_unique.
  - rewrite inject_Z_plus. pose proof (Qfloor_le x). lra.
  - pose proof (Qlt_floor x) as H. rewrite !inject_Z_plus in *.
    change (inject_Z 1) with 1%Q in *. lra.
Qed.

Lemma round_half_even_plus_even (x : Q) (k : Z) :
  Z.even k = true ->
  round_half_even (x + inject_Z k) = round_half_even x + k.
Proof.
  intros Hk. unfold round_half_even. rewrite Qfloor_plus_Z.
  assert (Hc : Qcompare (x + inject_Z k - inject_Z (Qfloor x + k)) (1 # 2)
               = Qcompare (x - inject_Z (Qfloor x)) (1 # 2)).
  { apply Qcompare_comp; [|reflexivity]. rewrite inject_Z_plus. ring. }
  rewrite Hc, Z.even_add, Hk. clear Hc.
  generalize (Qcompare (x - inject_Z (Qfloor x)) (1 # 2)). intros c.
  destruct c; [destruct (Z.even (Qfloor x)); simpl|..]; lia.
Qed.

(** [round(x + c, 1) = round(x, 1) + c] when [10 * c] is an even integer. *)
Lemma round1_plus (x c : Q) (k : Z) :
  Z.even k = true -> (c * 10 == inject_Z k)%Q ->
  (round1 (x + c) == round1 x + c)%Q.
Proof.
  intros Hk Hc. unfold round1.
  assert (Hx : ((x + c) * 10 == x * 10 + inject_Z k)%Q) by (rewrite <- Hc; ring).
  rewrite (round_half_even_comp _ _ Hx), (round_half_even_plus_even _ _ Hk).
  rewrite inject_Z_plus, !Qdiv_10, <- Hc. ring.
Qed.

(** Rounding keeps a gap of [lo..hi] whole degrees. *)
Lemma round1_offset_between (x d lo hi : Q) (klo khi : Z) :
  Z.even klo = true -> (lo * 10 == inject_Z klo)%Q ->
  Z.even khi = true -> (hi * 10 == inject_Z khi)%Q ->
  (lo <= d <= hi)%Q ->
  (round1 x + lo <= round1 (x + d) <= round1 x + hi)%Q.
Proof.
  intros Hklo Hlo Hkhi Hhi [H1 H2].
  rewrite <- (round1_plus x lo klo Hklo Hlo), <- (round1_plus x hi khi Hkhi Hhi).
  split; apply round1_mono; lra.
Qed.

(** ** Every field of a generated day *)

Lemma py_int_nonneg (x : Q) : (0 <= x)%Q -> py_int x = Qfloor x.
Proof.
  intros Hx. unfold py_int. destruct x as [n d]. simpl.
  apply Z.quot_div_nonneg; [|lia].
  unfold Qle in Hx. simpl in Hx. lia.
Qed.

Lemma py_int_between (x : Q) (lo hi : Z) :
  0 <= lo -> (inject_Z lo <= x <= inject_Z hi)%Q -> lo <= py_int x <= hi.
Proof.
  intros Hlo [H1 H2].
  assert (H0 : (0 <= x)%Q).
  { eapply Qle_trans; [|exact H1]. rewrite Zle_Qle in Hlo. exact Hlo. }
  rewrite (py_int_nonneg x H0).
  apply Qfloor_resp_le in H1, H2. rewrite Qfloor_Z in H1, H2. lia.
Qed.

(** The record built by one iteration, with the draws it used. *)
Lemma sample_day_run base_temp temp_range current_date daily_data g :
  rng_ok g ->
  exists temp_mean d_min d_max d_feel d_hum d_press wind k c phrases descr g',
    sample_day base_temp temp_range current_date daily_data g
    = (Returned
         {| dw_date := current_date;
            temperature := round1 temp_mean;
            temperature_min := round1 (temp_mean - d_min);
            temperature_max := round1 (temp_mean + d_max);
            feels_like := round1 (temp_mean + d_feel);
            pressure := Some (py_int (1013 + d_press));
            humidity := Some (Z.max 10 (Z.min 100 (py_int (40 + temp_mean / 50 * 40 + d_hum))));
            wind_speed := round1 wind;
            wind_direction := inject_Z k;
            weather_condition := c;
            weather_description := descr |}, g') /\
    rng_ok g' /\
    (1 <= d_min <= 5)%Q /\ (1 <= d_max <= 5)%Q /\ (-2 <= d_feel <= 2)%Q /\
    (-10 <= d_hum <= 10)%Q /\ (-15 <= d_press <= 15)%Q /\ (0 <= wind <= 20)%Q /\
    0 <= k <= 359 /\
    In c weather_conditions /\
    weather_descriptions !! c = Some phrases /\ In descr phrases.
Proof.
  intros Hg.
  assert (Hwalk : exists raw,
             walk_temperature base_temp temp_range daily_data g = (Returned raw, advance g)).
  { unfold walk_temperature. destruct (last daily_data); eexists; reflexivity. }
  destruct Hwalk as [raw Hwalk].
  set (g1 := advance g).
  set (g2 := advance g1). set (g3 := advance g2). set (g4 := advance g3).
  set (g5 := advance g4). set (g6 := advance g5). set (g7 := advance g6).
  set (g8 := advance g7).
  assert (Hg8 : rng_ok g8) by (repeat apply rng_ok_advance; exact Hg).
  set (temp_mean := clamp (-30) 50 raw).
  set (d_min := (1 + (5 - 1) * tape_unit g1 (pos g1))%Q).
  destruct (choices_conditions (temp_mean - d_min) temp_mean g8 Hg8) as (c & Hc & Hin & _).
  destruct (descriptions_total c Hin) as (phrases & Hph & Hne).
  destruct (choice_returns phrases (advance g8) Hne) as (descr & Hd & Hdin).
  exists temp_mean, d_min,
    (1 + (5 - 1) * tape_unit g2 (pos g2))%Q,
    (-2 + (2 - -2) * tape_unit g3 (pos g3))%Q,
    (-10 + (10 - -10) * tape_unit g4 (pos g4))%Q,
    (-15 + (15 - -15) * tape_unit g5 (pos g5))%Q,
    (0 + (20 - 0) * tape_unit g6 (pos g6))%Q,
    (0 + tape_int g7 (pos g7) mod (359 - 0 + 1)),
    c, phrases, descr, (advance (advance g8)).
  split.
  { unfold sample_day.
    rewrite (bind_returned _ _ _ _ _ Hwalk).
    do 6 (erewrite bind_returned; [|apply uniform_eq]).
    erewrite bind_returned; [|apply randint_eq].
    erewrite bind_returned; [|exact Hc].
    rewrite Hph.
    erewrite bind_returned; [|exact Hd].
    reflexivity. }
  split; [repeat apply rng_ok_advance; exact Hg8|].
  do 6 (split; [apply uniform_range; [lra|apply Hg]|]).
  split.
  { pose proof (Z.mod_pos_bound (tape_int g7 (pos g7)) (359 - 0 + 1) ltac:(lia)). lia. }
  auto.
Qed.

Lemma sample_day_plausible base_temp temp_range current_date daily_data g :
  rng_ok g ->
  exists r g',
    sample_day base_temp temp_range current_date daily_data g = (Returned r, g') /\
    rng_ok g' /\
    temperatures_spread r /\ measurements_in_range r /\ description_matches_condition r.
Proof.
  intros Hg.
  destruct (sample_day_run base_temp temp_range current_date daily_data g Hg)
    as (tm & d_min & d_max & d_feel & d_hum & d_press & wind & k & c & phrases & descr & g'
        & Hrun & Hg' & Hmin & Hmax & Hfeel & Hhum & Hpress & Hwind & Hk & Hc & Hph & Hdescr).
  eexists _, g'. split; [exact Hrun|]. split; [exact Hg'|].
  unfold temperatures_spread, measurements_in_range, description_matches_condition.
  cbn [temperature temperature_min temperature_max feels_like humidity pressure wind_speed
       wind_direction weather_condition weather_description].
  split; [|split].
  - split; [|split].
    + pose proof (round1_offset_between tm (- d_min) (-5) (-1) (-50) (-10)
                    eq_refl ltac:(reflexivity) eq_refl ltac:(reflexivity) ltac:(lra)) as H.
      unfold Qminus. lra.
    + pose proof (round1_offset_between tm d_max 1 5 10 50
                    eq_refl ltac:(reflexivity) eq_refl ltac:(reflexivity) ltac:(lra)) as H.
      lra.
    + pose proof (round1_offset_between tm d_feel (-2) 2 (-20) 20
                    eq_refl ltac:(reflexivity) eq_refl ltac:(reflexivity) ltac:(lra)) as H.
      lra.
  - split; [eexists; split; [reflexivity|lia]|].
    split.
    { eexists. split; [reflexivity|].
      apply py_int_between; [lia|].
      change (inject_Z 998) with 998%Q. change (inject_Z 1028) with 1028%Q. lra. }
    split.
    { split.
      - apply (round1_lower 0); [exists 0; reflexivity|lra].
      - apply (round1_upper 20); [exists 200; reflexivity|lra]. }
    exists k. split; [reflexivity|exact Hk].
  - split; [exact Hc|]. exists phrases. split; assumption.
Qed.

(** What holds for every iteration holds for every record of the series. *)
Lemma sample_loop_forall (P : DailyWeather -> Prop) base_temp temp_range end_date :
  (forall current_date daily_data g,
      rng_ok g ->
      exists r g',
        sample_day base_temp temp_range current_date daily_data g = (Returned r, g') /\
        rng_ok g' /\ P r) ->
  forall fuel current_date daily_data g,
    rng_ok g ->
    (Z.to_nat (end_date + 1 - current_date) < fuel)%nat ->
    exists out g',
      sample_loop fuel base_temp temp_range end_date current_date daily_data g
      = (Returned (daily_data ++ out), g') /\
      Forall P out.
Proof.
  intros Hday. induction fuel as [|fuel IH]; intros current_date daily_data g Hg Hfuel; [lia|].
  simpl. destruct (current_date <=? end_date) eqn:Hle.
  - apply Z.leb_le in Hle.
    destruct (Hday current_date daily_data g Hg) as (r & g1 & Hrun & Hg1 & HP).
    destruct (IH (current_date + 1) (daily_data ++ [r]) g1 Hg1) as (out & g2 & Hloop & Hall);
      [lia|].
    exists (r :: out), g2.
    rewrite (bind_returned _ _ _ _ _ Hrun), Hloop, <- app_assoc.
    split; [reflexivity|constructor; assumption].
  - exists [], g. rewrite app_nil_r. split; [reflexivity|constructor].
Qed.

Lemma generate_forall (P : DailyWeather -> Prop) :
  (forall base_temp temp_range current_date daily_data g,
      rng_ok g ->
      exists r g',
        sample_day base_temp temp_range current_date daily_data g = (Returned r, g') /\
        rng_ok g' /\ P r) ->
  forall current_month start_date end_date latitude g,
    rng_ok g ->
    exists data g',
      generate_sample_weather_data current_month start_date end_date latitude g
      = (Returned data, g') /\
      Forall P data.
Proof.
  intros Hday current_month start_date end_date latitude g Hg.
  unfold generate_sample_weather_data.
  destruct (sample_loop_forall P (adjusted_base_temp current_month latitude)
              (temp_range_of current_month latitude) end_date (Hday _ _)
              (S (Z.to_nat (end_date + 1 - start_date))) start_date [] g Hg)
    as (out & g' & Hloop & Hall); [lia|].
  exists out, g'. split; assumption.
Qed.

(** ** The generator beyond its claims *)

(** X1: when the end date precedes the start date the generator's loop is
    not entered: it returns the empty list and draws nothing, and so does
    the fetcher when the request raises. *)
Theorem X1_generator_empty_range
    (current_month : Z) (start_date end_date : date) (latitude longitude : Q) (g : rng) :
  end_date < start_date ->
  generate_sample_weather_data current_month start_date end_date latitude g
  = (Returned [], g) /\
  get_historical_weather_data ApiRaises current_month latitude longitude start_date end_date g
  = (Returned [], g).
Proof.
  intros Hlt.
  assert (Hgen : generate_sample_weather_data current_month start_date end_date latitude g
                 = (Returned [], g)).
  { unfold generate_sample_weather_data.
    replace (Z.to_nat (end_date + 1 - start_date)) with 0%nat by lia.
    simpl. apply Z.leb_gt in Hlt. rewrite Hlt. reflexivity. }
  split; [exact Hgen|].
  unfold get_historical_weather_data, try_except. simpl. exact Hgen.
Qed.

Lemma X1_generator_empty_range_witness :
  generate_sample_weather_data 1 102 100 32.1 sample_tape = (Returned [], sample_tape) /\
  get_historical_weather_data ApiRaises 1 32.1 34.8 102 100 sample_tape
  = (Returned [], sample_tape).
Proof. apply (X1_generator_empty_range 1 102 100 32.1 34.8 sample_tape). lia. Defined.

(** X2: every generated record carries a humidity in 10..100, a pressure in
    998..1028, a wind speed in [0, 20] and a whole wind direction in 0..359,
    whatever the draws. *)
Theorem X2_generated_measurements_in_range
    (current_month : Z) (start_date end_date : date) (latitude : Q) (g : rng) :
  rng_ok g ->
  exists data g',
    generate_sample_weather_data current_month start_date end_date latitude g
    = (Returned data, g') /\
    Forall measurements_in_range data.
Proof.
  apply generate_forall. intros base_temp temp_range current_date daily_data g0 Hg0.
  destruct (sample_day_plausible base_temp temp_range current_date daily_data g0 Hg0)
    as (r & g' & Hrun & Hg' & _ & Hrange & _).
  exists r, g'. auto.
Qed.

Lemma X2_generated_measurements_in_range_witness :
  exists data g',
    generate_sample_weather_data 7 100 130 (-33.9) sample_tape = (Returned data, g') /\
    Forall measurements_in_range data.
Proof.
  apply (X2_generated_measurements_in_range 7 100 130 (-33.9) sample_tape).
  exact sample_tape_ok.
Defined.



(** X4: the condition of a generated record is one of the five conditions
    and its description is a phrase of that very condition; the lookup of the
    phrases and the choice among them never raise. *)
Theorem X4_generated_description_matches_condition
    (current_month : Z) (start_date end_date : date) (latitude : Q) (g : rng) :
  rng_ok g ->
  exists data g',
    generate_sample_weather_data current_month start_date end_date latitude g
    = (Returned data, g') /\
    Forall description_matches_condition data.
Proof.
  apply generate_forall. intros base_temp temp_range current_date daily_data g0 Hg0.
  destruct (sample_day_plausible base_temp temp_range current_date daily_data g0 Hg0)
    as (r & g' & Hrun & Hg' & _ & _ & Hdescr).
  exists r, g'. auto.
Qed.

Lemma X4_generated_description_matches_condition_witness :
  exists data g',
    generate_sample_weather_data 7 100 130 (-33.9) sample_tape = (Returned data, g') /\
    Forall description_matches_condition data.
Proof.
  apply (X4_generated_description_matches_condition 7 100 130 (-33.9) sample_tape).
  exact sample_tape_ok.
Defined.


(** X6: within one hemisphere the base temperature does not rise with the
    distance from the equator: it falls by a ninth of a degree per degree of
    latitude. *)
Theorem X6_base_temperature_cools_towards_poles
    (current_month : Z) (latitude1 latitude2 : Q) :
  is_northern_of latitude1 = is_northern_of latitude2 ->
  (Qabs latitude1 <= Qabs latitude2)%Q ->
  (adjusted_base_temp current_month latitude2 <= adjusted_base_temp current_month latitude1)%Q /\
  (adjusted_base_temp current_month latitude1 - adjusted_base_temp current_month latitude2
   == (Qabs latitude2 - Qabs latitude1) / 9)%Q.
Proof.
  intros Hhemi Habs. unfold adjusted_base_temp. rewrite Hhemi.
  assert (Hdiff : forall b : Q,
             (b - Qabs latitude1 / 90 * 10 - (b - Qabs latitude2 / 90 * 10)
              == (Qabs latitude2 - Qabs latitude1) / 9)%Q) by (intros b; field).
  destruct (is_northern_of latitude2); cbv zeta; split; try apply Hdiff;
    unfold Qdiv; change (/ 90)%Q with (1 # 90)%Q; lra.
Qed.

Lemma X6_base_temperature_cools_towards_poles_witness :
  (adjusted_base_temp 1 60 <= adjusted_base_temp 1 32.1)%Q /\
  (adjusted_base_temp 1 32.1 - adjusted_base_temp 1 60 == (Qabs 60 - Qabs 32.1) / 9)%Q.
Proof.
  apply (X6_base_temperature_cools_towards_poles 1 32.1 60).
  - reflexivity.
  - vm_compute. discriminate.
Defined.

(** ** The classifiers beyond their claim *)

(** X7: the two classifiers never disagree: the description always belongs
    to the class of the condition, and the condition is one of Snow, Heavy
    Rain, Rain, Precipitation and Clear. *)
Theorem X7_description_agrees_with_condition (precipitation rain snowfall : Q) :
  condition_of_description (get_weather_description precipitation rain snowfall)
  = Some (get_weather_condition precipitation rain snowfall) /\
  In (get_weather_condition precipitation rain snowfall)
    ["Snow"; "Heavy Rain"; "Rain"; "Precipitation"; "Clear"].
Proof.
  unfold get_weather_description, get_weather_condition.
  destruct (Qgtb snowfall 0) eqn:Hs0; [destruct (Qgtb snowfall 5)|]; simpl; auto.
  destruct (Qgtb rain 0) eqn:Hr0.
  - destruct (Qgtb rain 10) eqn:Hr10; [|destruct (Qgtb rain 2)]; simpl; auto.
  - destruct (Qgtb precipitation 0); simpl; auto 10.
Qed.

(** ** The fetcher beyond its claims *)

Lemma ends_ret {A} (a : A) : always_ends (ret a).
Proof. intros g. discriminate. Qed.

Lemma ends_raise {A} : always_ends (@raise A).
Proof. intros g. discriminate. Qed.

Lemma ends_bind {A B} (m : M A) (k : A -> M B) :
  always_ends m -> (forall a, always_ends (k a)) -> always_ends (bind m k).
Proof.
  intros Hm Hk g. unfold bind. specialize (Hm g).
  destruct (m g) as [[a| |] g1]; simpl in *; [apply Hk|discriminate|congruence].
Qed.

Lemma ends_randint a b : always_ends (randint a b).
Proof. intros g. discriminate. Qed.

Lemma ends_series_get daily key dflt n i : always_ends (series_get daily key dflt n i).
Proof. intros g. unfold series_get. destruct (default _ _ !! i); discriminate. Qed.

Ltac always_ends_step :=
  first
    [ apply ends_ret
    | apply ends_raise
    | apply ends_series_get
    | apply ends_randint
    | apply ends_bind; [|intros ?]
    | match goal with
      | |- always_ends (match ?x with _ => _ end) => destruct x
      end ].

Lemma ends_fetch_day daily time_array i day :
  always_ends (fetch_day daily time_array i day).
Proof. unfold fetch_day. repeat always_ends_step. Qed.

Lemma ends_fetch_loop daily time_array rest :
  forall i daily_data, always_ends (fetch_loop daily time_array i rest daily_data).
Proof.
  induction rest as [|day rest IH]; intros i daily_data; simpl.
  - apply ends_ret.
  - apply ends_bind; [apply ends_fetch_day|].
    intros [r|]; apply IH.
Qed.

Lemma ends_fetch_body reply : always_ends (fetch_body reply).
Proof.
  unfold fetch_body. destruct reply as [|data_daily]; [apply ends_raise|].
  destruct (negb (daily_truthy data_daily)); [apply ends_ret|].
  destruct data_daily as [daily|]; [|apply ends_raise].
  destruct (time daily); [apply ends_fetch_loop|apply ends_raise].
Qed.




(** X9: a reply whose daily object has no time array, or whose
    mean-temperature series is empty while the time array is not, makes the
    lookup raise: the result is the generator's series, drawn from the
    unchanged random state. *)
Theorem X9_fetcher_malformed_reply_falls_back
    (daily : daily_dict) (current_month : Z) (latitude longitude : Q)
    (start_date end_date : date) (g : rng) :
  (daily_truthy (Some daily) = true /\ time daily = None) \/
  (exists day rest, time daily = Some (day :: rest) /\
                    series daily !! "temperature_2m_mean" = Some []) ->
  get_historical_weather_data (ApiJson (Some daily)) current_month latitude longitude
    start_date end_date g
  = generate_sample_weather_data current_month start_date end_date latitude g.
Proof.
  unfold get_historical_weather_data, try_except, fetch_body.
  intros [[Htruthy Htime]|(day & rest & Htime & Hmean)].
  - rewrite Htruthy, Htime. reflexivity.
  - unfold daily_truthy. rewrite Htime.
    cbn [negb fetch_loop]. unfold fetch_day, bind at 1, series_get at 1.
    rewrite Hmean. reflexivity.
Qed.

Lemma X9_fetcher_malformed_reply_falls_back_witness :
  get_historical_weather_data (ApiJson (Some daily_without_time)) 1 32.1 34.8 100 102
    sample_tape
  = generate_sample_weather_data 1 100 102 32.1 sample_tape.
Proof.
  apply (X9_fetcher_malformed_reply_falls_back daily_without_time 1 32.1 34.8 100 102
           sample_tape).
  left. split; reflexivity.
Defined.

(** X10: a well-formed reply in which no day carries all three
    temperatures, in particular one whose time array is empty, yields the
    empty list: the fetcher does not fall back to the generator, and [main]
    will skip the city. *)
Theorem X10_fetcher_no_usable_day
    (daily : daily_dict) (time_array : list date) (current_month : Z)
    (latitude longitude : Q) (start_date end_date : date) (g : rng) :
  time daily = Some time_array ->
  series_wf daily (length time_array) ->
  (forall i, (i < length time_array)%nat -> has_temperatures daily i = false) ->
  exists g',
    get_historical_weather_data (ApiJson (Some daily)) current_month latitude longitude
      start_date end_date g
    = (Returned [], g').
Proof.
  intros Htime Hwf Hnone.
  destruct (fetch_loop_spec daily time_array Hwf time_array 0%nat [] g)
    as (out & g' & Hloop & Hall); [intros j day Hj; exact Hj|].
  assert (Hkept : kept_indices daily 0 (length time_array) = []).
  { unfold kept_indices.
    assert (Hgen : forall first count,
               (first + count <= length time_array)%nat ->
               List.filter (has_temperatures daily) (seq first count) = []).
    { intros first count. revert first.
      induction count as [|count IH]; intros first Hle; simpl; [reflexivity|].
      rewrite Hnone by lia. apply IH. lia. }
    apply Hgen. lia. }
  rewrite Hkept in Hall. apply Forall2_nil_inv_l in Hall. subst out.
  exists g'.
  assert (Hbody : fetch_body (ApiJson (Some daily)) g = (Returned [], g')).
  { unfold fetch_body, daily_truthy. rewrite Htime. exact Hloop. }
  unfold get_historical_weather_data, try_except. rewrite Hbody. reflexivity.
Qed.

Lemma daily_without_temperatures_wf : series_wf daily_without_temperatures 2.
Proof.
  intros key l H. apply elem_of_list_to_map_2 in H.
  apply list_elem_of_In in H. simpl in H.
  repeat (destruct H as [H|H]; [inversion H; subst; simpl; lia|]). destruct H.
Qed.

Lemma X10_fetcher_no_usable_day_witness :
  exists g',
    get_historical_weather_data (ApiJson (Some daily_without_temperatures)) 1 32.1 34.8
      400 401 sample_tape
    = (Returned [], g').
Proof.
  apply (X10_fetcher_no_usable_day daily_without_temperatures [400; 401] 1 32.1 34.8
           400 401 sample_tape).
  - reflexivity.
  - exact daily_without_temperatures_wf.
  - intros i Hi. destruct i as [|[|i]]; [vm_compute; reflexivity..|simpl in Hi; lia].
Defined.







(** ** The day table beyond its claim *)

Lemma lookup_weather_data_upsert_same city_id s daily_data :
  option_map wd_day
    (lookup_weather_data (upsert_weather_data city_id s daily_data) city_id (dw_date daily_data))
  = Some daily_data.
Proof.
  unfold lookup_weather_data, upsert_weather_data, select_weather_data_id.
  set (P := fun r => (wd_city_id r =? city_id) && (dw_date (wd_day r) =? dw_date daily_data)).
  destruct (List.find P (weather_data s)) as [r0|] eqn:Hfind.
  - unfold update_weather_data. simpl weather_data.
    rewrite find_map_same_test
      by (intros x; destruct (wd_id x =? wd_id r0); reflexivity).
    rewrite Hfind. simpl. rewrite Z.eqb_refl. simpl.
    apply find_some in Hfind as [_ Hkey]. unfold P in Hkey.
    apply andb_true_iff in Hkey as [_ Hdate]. apply Z.eqb_eq in Hdate.
    rewrite Hdate. destruct daily_data; reflexivity.
  - unfold insert_weather_data. simpl weather_data.
    rewrite find_snoc, Hfind. unfold P at 1. simpl. rewrite !Z.eqb_refl. reflexivity.
Qed.

Lemma lookup_weather_data_upsert_other city_id s daily_data city_id' d' :
  data_ids_ok s ->
  (city_id', d') <> (city_id, dw_date daily_data) ->
  lookup_weather_data (upsert_weather_data city_id s daily_data) city_id' d'
  = lookup_weather_data s city_id' d'.
Proof.
  intros [Hnd _] Hne.
  unfold lookup_weather_data, upsert_weather_data, select_weather_data_id.
  set (P := fun r => (wd_city_id r =? city_id) && (dw_date (wd_day r) =? dw_date daily_data)).
  set (P' := fun r => (wd_city_id r =? city_id') && (dw_date (wd_day r) =? d')).
  destruct (List.find P (weather_data s)) as [r0|] eqn:Hfind.
  - unfold update_weather_data. simpl weather_data.
    rewrite find_map_same_test
      by (intros x; destruct (wd_id x =? wd_id r0); reflexivity).
    destruct (List.find P' (weather_data s)) as [r1|] eqn:Hfind'; [|reflexivity].
    simpl. destruct (wd_id r1 =? wd_id r0) eqn:Hid; [|reflexivity].
    apply Z.eqb_eq in Hid.
    apply find_some in Hfind as [Hin0 Hkey0]. apply find_some in Hfind' as [Hin1 Hkey1].
    pose proof (NoDup_map_eq wd_id _ _ _ Hnd Hin1 Hin0 Hid) as ->.
    apply weather_data_key_test in Hkey0, Hkey1. congruence.
  - unfold insert_weather_data. simpl weather_data.
    rewrite find_snoc.
    destruct (List.find P' (weather_data s)); [reflexivity|].
    destruct (P' _) eqn:HP'; [|reflexivity].
    apply weather_data_key_test in HP'. unfold weather_data_key in HP'. simpl in HP'.
    congruence.
Qed.

Lemma upsert_weather_data_ids_ok city_id s daily_data :
  data_ids_ok s -> data_ids_ok (upsert_weather_data city_id s daily_data).
Proof.
  intros [Hnd Hlt]. unfold upsert_weather_data.
  destruct (select_weather_data_id s city_id (dw_date daily_data)) as [id|];
    unfold data_ids_ok, update_weather_data, insert_weather_data; simpl.
  - assert (Hids : map wd_id
                     (map (fun r => if wd_id r =? id then set_weather_columns r daily_data else r)
                        (weather_data s))
                   = map wd_id (weather_data s)).
    { rewrite map_map. apply map_ext. intros r. destruct (wd_id r =? id); reflexivity. }
    split; [rewrite Hids; exact Hnd|].
    rewrite Forall_map. eapply Forall_impl; [exact Hlt|].
    intros r Hr. simpl. destruct (wd_id r =? id); exact Hr.
  - split.
    + rewrite map_app. simpl. apply NoDup_app. split; [exact Hnd|].
      split; [|apply NoDup_singleton].
      intros i Hi Hi'. apply list_elem_of_singleton in Hi'. subst i.
      apply list_elem_of_fmap in Hi as (r & Hr & Hin).
      rewrite Forall_forall in Hlt. specialize (Hlt r Hin). lia.
    + apply Forall_app. split.
      * eapply Forall_impl; [exact Hlt|]. intros r Hr. simpl in Hr. lia.
      * repeat constructor. simpl. lia.
Qed.

Lemma fold_upsert_ids_ok city_id days :
  forall s, data_ids_ok s -> data_ids_ok (fold_left (upsert_weather_data city_id) days s).
Proof.
  induction days as [|d ds IH]; intros s Hok; simpl; [exact Hok|].
  apply IH. apply upsert_weather_data_ids_ok. exact Hok.
Qed.

Lemma last_day_for_cons d x days :
  last_day_for d (x :: days)
  = match last_day_for d days with
    | Some y => Some y
    | None => if dw_date x =? d then Some x else None
    end.
Proof.
  unfold last_day_for. simpl. destruct (dw_date x =? d); [|destruct (last _); reflexivity].
  destruct (List.filter _ days) as [|y l] eqn:Hf; [reflexivity|].
  rewrite last_cons. destruct (last (y :: l)) eqn:Hl; [reflexivity|].
  apply last_None in Hl. discriminate.
Qed.

Lemma fold_upsert_last_write_wins city_id days :
  forall s d,
    data_ids_ok s ->
    option_map wd_day (lookup_weather_data (fold_left (upsert_weather_data city_id) days s)
                         city_id d)
    = match last_day_for d days with
      | Some x => Some x
      | None => option_map wd_day (lookup_weather_data s city_id d)
      end.
Proof.
  induction days as [|x days IH]; intros s d Hok; simpl fold_left.
  - reflexivity.
  - rewrite (IH _ d (upsert_weather_data_ids_ok city_id s x Hok)), last_day_for_cons.
    destruct (last_day_for d days); [reflexivity|].
    destruct (dw_date x =? d) eqn:Hd.
    + apply Z.eqb_eq in Hd. subst d. apply lookup_weather_data_upsert_same.
    + apply Z.eqb_neq in Hd.
      rewrite lookup_weather_data_upsert_other; [reflexivity|exact Hok|congruence].
Qed.

Lemma filter_map_frame {A} (P : A -> bool) (f : A -> A) (l : list A) :
  (forall x, P (f x) = P x) ->
  (forall x, In x l -> P x = true -> f x = x) ->
  List.filter P (map f l) = List.filter P l.
Proof.
  intros HP Hf. induction l as [|x l IH]; simpl; [reflexivity|].
  rewrite HP. destruct (P x) eqn:Hx.
  - rewrite (Hf x) by (simpl; auto). f_equal. apply IH.
    intros y Hy. apply Hf. right. exact Hy.
  - apply IH. intros y Hy. apply Hf. right. exact Hy.
Qed.

Lemma filter_snoc_false {A} (P : A -> bool) (l : list A) (x : A) :
  P x = false -> List.filter P (l ++ [x]) = List.filter P l.
Proof.
  intros Hx. rewrite List.filter_app. simpl. rewrite Hx. apply app_nil_r.
Qed.

Lemma upsert_weather_data_other_city city_id s daily_data city_id' :
  data_ids_ok s -> city_id' <> city_id ->
  city_days (upsert_weather_data city_id s daily_data) city_id' = city_days s city_id'.
Proof.
  intros [Hnd _] Hne. unfold city_days, upsert_weather_data, select_weather_data_id.
  destruct (List.find _ (weather_data s)) as [r0|] eqn:Hfind.
  - unfold update_weather_data. simpl weather_data.
    apply find_some in Hfind as [Hin0 Hkey0].
    apply andb_true_iff in Hkey0 as [Hcity0 _]. apply Z.eqb_eq in Hcity0.
    apply filter_map_frame.
    + intros x. destruct (wd_id x =? wd_id r0); reflexivity.
    + intros x Hin Hx. apply Z.eqb_eq in Hx.
      destruct (wd_id x =? wd_id r0) eqn:Hid; [|reflexivity].
      apply Z.eqb_eq in Hid.
      pose proof (NoDup_map_eq wd_id _ _ _ Hnd Hin Hin0 Hid) as ->. congruence.
  - unfold insert_weather_data. simpl weather_data.
    apply filter_snoc_false. simpl. apply Z.eqb_neq. congruence.
Qed.

Lemma fold_upsert_other_city city_id days city_id' :
  city_id' <> city_id ->
  forall s, data_ids_ok s ->
            city_days (fold_left (upsert_weather_data city_id) days s) city_id'
            = city_days s city_id'.
Proof.
  intros Hne. induction days as [|d ds IH]; intros s Hok; simpl; [reflexivity|].
  rewrite IH by (apply upsert_weather_data_ids_ok; exact Hok).
  apply upsert_weather_data_other_city; assumption.
Qed.

Lemma stats_for_period_other_city city_id today s period city_id' :
  stats_ids_ok s -> city_id' <> city_id ->
  city_stats (stats_for_period city_id today s period) city_id' = city_stats s city_id'.
Proof.
  intros [Hnd _] Hne. destruct period as [p start_date].
  unfold city_stats, stats_for_period.
  destruct (avg_temp _); [|reflexivity].
  rewrite select_weather_stats_id_lookup, lookup_stat_find.
  destruct (List.find (stats_key_is city_id today p) (weather_stats s)) as [r0|] eqn:Hfind.
  - simpl option_map. cbv iota. unfold update_weather_stats. simpl weather_stats.
    apply find_some in Hfind as [Hin0 Hkey0].
    apply stats_key_is_true in Hkey0 as (Hcity0 & _ & _).
    apply filter_map_frame.
    + intros x. destruct (ws_id x =? ws_id r0); reflexivity.
    + intros x Hin Hx. apply Z.eqb_eq in Hx.
      destruct (ws_id x =? ws_id r0) eqn:Hid; [|reflexivity].
      apply Z.eqb_eq in Hid.
      pose proof (NoDup_map_eq ws_id _ _ _ Hnd Hin Hin0 Hid) as ->. congruence.
  - simpl option_map. cbv iota. unfold insert_weather_stats. simpl weather_stats.
    apply filter_snoc_false. simpl. apply Z.eqb_neq. congruence.
Qed.

Lemma calculate_weather_stats_ids_ok s city_id today :
  stats_ids_ok s -> stats_ids_ok (calculate_weather_stats s city_id today).
Proof.
  intros Hok. rewrite calculate_weather_stats_eq.
  apply stats_for_period_ids_ok, stats_for_period_ids_ok, Hok.
Qed.

Lemma stats_for_period_data_next city_id today s period :
  weather_data_next (stats_for_period city_id today s period) = weather_data_next s.
Proof.
  destruct period as [p start_date]. unfold stats_for_period.
  destruct (avg_temp _); [|reflexivity].
  destruct (select_weather_stats_id _ _ _ _); reflexivity.
Qed.

Lemma ingest_city_data s city_id today days :
  weather_data (ingest_city s city_id today days)
  = weather_data (fold_left (upsert_weather_data city_id) days s) /\
  weather_data_next (ingest_city s city_id today days)
  = weather_data_next (fold_left (upsert_weather_data city_id) days s).
Proof.
  unfold ingest_city. destruct days as [|d ds]; [split; reflexivity|].
  rewrite calculate_weather_stats_eq, !stats_for_period_weather_data,
    !stats_for_period_data_next.
  split; reflexivity.
Qed.

(** ** Ingestion beyond its claim *)

(** X12: an upsert can be read back: after storing a day for a city, the
    row found for (city, date) carries exactly that day, whether the row was
    inserted or updated. *)
Theorem X12_upsert_then_lookup (city_id : Z) (s : Store) (daily_data : DailyWeather) :
  option_map wd_day
    (lookup_weather_data (upsert_weather_data city_id s daily_data) city_id (dw_date daily_data))
  = Some daily_data.
Proof. apply lookup_weather_data_upsert_same. Qed.

(** X13: on a table with distinct ids an upsert changes no other key: the
    row stored for any other (city, date) is the same before and after, and
    the statistics table is not touched. *)
Theorem X13_upsert_leaves_other_keys
    (city_id : Z) (s : Store) (daily_data : DailyWeather) (city_id' : Z) (d' : date) :
  data_ids_ok s ->
  (city_id', d') <> (city_id, dw_date daily_data) ->
  lookup_weather_data (upsert_weather_data city_id s daily_data) city_id' d'
  = lookup_weather_data s city_id' d' /\
  weather_stats (upsert_weather_data city_id s daily_data) = weather_stats s.
Proof.
  intros Hok Hne. split.
  - apply lookup_weather_data_upsert_other; assumption.
  - apply upsert_weather_data_stats.
Qed.

(** X14: last write wins.  After the ingestion of a series, the day stored
    for a date is the last record of the series with that date; a date that
    the series does not mention keeps what was stored. *)
Theorem X14_ingest_last_write_wins
    (s : Store) (city_id : Z) (today : date) (days : list DailyWeather) (d : date) :
  data_ids_ok s ->
  option_map wd_day (lookup_weather_data (ingest_city s city_id today days) city_id d)
  = match last_day_for d days with
    | Some x => Some x
    | None => option_map wd_day (lookup_weather_data s city_id d)
    end.
Proof.
  intros Hok. unfold lookup_weather_data.
  rewrite (proj1 (ingest_city_data s city_id today days)).
  apply (fold_upsert_last_write_wins city_id days s d Hok).
Qed.

Lemma ingest_city_ids_ok
    (s : Store) (city_id : Z) (today : date) (days : list DailyWeather) :
  data_ids_ok s -> stats_ids_ok s ->
  data_ids_ok (ingest_city s city_id today days) /\
  stats_ids_ok (ingest_city s city_id today days).
Proof.
  intros Hdata Hstats. split.
  - destruct (ingest_city_data s city_id today days) as [Hd Hn].
    unfold data_ids_ok. rewrite Hd, Hn.
    apply fold_upsert_ids_ok. exact Hdata.
  - unfold ingest_city. destruct days as [|d ds]; [exact Hstats|].
    apply calculate_weather_stats_ids_ok.
    destruct (fold_upsert_stats city_id (d :: ds) s) as [Hs Hn].
    unfold stats_ids_ok. rewrite Hs, Hn. exact Hstats.
Qed.

(** X15: ingestion keeps the PRIMARY KEY constraints of both tables: ids stay
    distinct and below the IDENTITY counters. *)
Theorem X15_ingest_keeps_primary_keys
    (s : Store) (city_id : Z) (today : date) (days : list DailyWeather) :
  data_ids_ok s -> stats_ids_ok s ->
  data_ids_ok (ingest_city s city_id today days) /\
  stats_ids_ok (ingest_city s city_id today days).
Proof. apply ingest_city_ids_ok. Qed.

(** X16: the ingestion of one city never touches another city: the day rows
    and the statistics rows of every other city are the same before and
    after. *)
Theorem X16_ingest_leaves_other_cities
    (s : Store) (city_id : Z) (today : date) (days : list DailyWeather) (city_id' : Z) :
  data_ids_ok s -> stats_ids_ok s -> city_id' <> city_id ->
  city_days (ingest_city s city_id today days) city_id' = city_days s city_id' /\
  city_stats (ingest_city s city_id today days) city_id' = city_stats s city_id'.
Proof.
  intros Hdata Hstats Hne. split.
  - unfold city_days. rewrite (proj1 (ingest_city_data s city_id today days)).
    apply (fold_upsert_other_city city_id days city_id' Hne s Hdata).
  - unfold ingest_city. destruct days as [|d ds]; [reflexivity|].
    set (sa := fold_left (upsert_weather_data city_id) (d :: ds) s).
    destruct (fold_upsert_stats city_id (d :: ds) s) as [Hs Hn]. fold sa in Hs, Hn.
    assert (Hok : stats_ids_ok sa) by (unfold stats_ids_ok; rewrite Hs, Hn; exact Hstats).
    rewrite calculate_weather_stats_eq.
    rewrite stats_for_period_other_city
      by (try apply stats_for_period_ids_ok; assumption).
    rewrite stats_for_period_other_city by assumption.
    unfold city_stats. rewrite Hs. reflexivity.
Qed.

Lemma sample_store_data_ids_ok : data_ids_ok sample_store.
Proof.
  split; simpl.
  - apply (bool_decide_unpack _). vm_compute. exact I.
  - repeat constructor.
Qed.

Lemma X13_upsert_leaves_other_keys_witness :
  lookup_weather_data (upsert_weather_data 1 sample_store (fixture_day 998 21 "Clear")) 2 996
  = lookup_weather_data sample_store 2 996 /\
  weather_stats (upsert_weather_data 1 sample_store (fixture_day 998 21 "Clear"))
  = weather_stats sample_store.
Proof.
  apply (X13_upsert_leaves_other_keys 1 sample_store (fixture_day 998 21 "Clear") 2 996).
  - exact sample_store_data_ids_ok.
  - discriminate.
Defined.

Lemma X14_ingest_last_write_wins_witness :
  option_map wd_day (lookup_weather_data (ingest_city sample_store 1 1000 sample_days) 1 999)
  = match last_day_for 999 sample_days with
    | Some x => Some x
    | None => option_map wd_day (lookup_weather_data sample_store 1 999)
    end.
Proof.
  apply (X14_ingest_last_write_wins sample_store 1 1000 sample_days 999).
  exact sample_store_data_ids_ok.
Defined.

Lemma X15_ingest_keeps_primary_keys_witness :
  data_ids_ok (ingest_city sample_store 1 1000 sample_days) /\
  stats_ids_ok (ingest_city sample_store 1 1000 sample_days).
Proof.
  apply (X15_ingest_keeps_primary_keys sample_store 1 1000 sample_days).
  - exact sample_store_data_ids_ok.
  - exact sample_store_ids_ok.
Defined.

Lemma X16_ingest_leaves_other_cities_witness :
  city_days (ingest_city sample_store 1 1000 sample_days) 2 = city_days sample_store 2 /\
  city_stats (ingest_city sample_store 1 1000 sample_days) 2 = city_stats sample_store 2.
Proof.
  apply (X16_ingest_leaves_other_cities sample_store 1 1000 sample_days 2).
  - exact sample_store_data_ids_ok.
  - exact sample_store_ids_ok.
  - discriminate.
Defined.

(** The sample ingestion, read back: the day 999, written twice, holds the
    second record; the day 995, not in the series, is as before. *)
Example ingest_read_back :
  option_map wd_day (lookup_weather_data (ingest_city sample_store 1 1000 sample_days) 1 999)
  = Some (fixture_day 999 27 "Snow") /\
  option_map wd_day (lookup_weather_data (ingest_city sample_store 1 1000 sample_days) 1 995)
  = Some (fixture_day 995 10 "Rain").
Proof. split; vm_compute; reflexivity. Qed.

(** ** The aggregator beyond its claims *)

Lemma window_rows_7_in_30 s city_id today r :
  In r (window_rows s city_id (today - 7) today) ->
  In r (window_rows s city_id (today - 30) today).
Proof. rewrite !window_rows_spec. intros (Hin & Hcity & Hdate). repeat split; auto; lia. Qed.

Lemma expected_row_temperatures s city_id today p row :
  expected_row s city_id today p row ->
  min_temperature row
  = sql_min (map Some (column temperature_min (window_rows s city_id (today - p) today))) /\
  max_temperature row
  = sql_max (map Some (column temperature_max (window_rows s city_id (today - p) today))) /\
  avg_temperature row
  = sql_avg (map Some (column temperature (window_rows s city_id (today - p) today))).
Proof. intros Hexp. rewrite Hexp. repeat split. Qed.

Lemma column_nonempty {A} (f : DailyWeather -> A) rows : rows <> [] -> column f rows <> [].
Proof. destruct rows; [congruence|discriminate]. Qed.

(** X17: the 7-day window lies inside the 30-day window.  So whenever the
    7-day statistic is written the 30-day one is written too, its minimum
    temperature is not above and its maximum not below the 7-day one. *)
Theorem X17_week_inside_month (s : Store) (city_id : Z) (today : date) :
  stats_ids_ok s ->
  window_rows s city_id (today - 7) today <> [] ->
  exists row7 row30 min7 max7 min30 max30,
    lookup_stat (calculate_weather_stats s city_id today) city_id today 7 = Some row7 /\
    lookup_stat (calculate_weather_stats s city_id today) city_id today 30 = Some row30 /\
    min_temperature row7 = Some min7 /\ max_temperature row7 = Some max7 /\
    min_temperature row30 = Some min30 /\ max_temperature row30 = Some max30 /\
    (min30 <= min7)%Q /\ (max7 <= max30)%Q.
Proof.
  intros Hok Hne7.
  assert (Hne30 : window_rows s city_id (today - 30) today <> []).
  { destruct (window_rows s city_id (today - 7) today) as [|r rows] eqn:H7; [congruence|].
    assert (Hin : In r (window_rows s city_id (today - 30) today)).
    { apply window_rows_7_in_30. rewrite H7. left. reflexivity. }
    intros Hnil. rewrite Hnil in Hin. exact Hin. }
  destruct (calculate_weather_stats_lookup s city_id today 7 Hok (or_introl eq_refl))
    as [_ H7].
  destruct (calculate_weather_stats_lookup s city_id today 30 Hok (or_intror eq_refl))
    as [_ H30].
  destruct (H7 Hne7) as (row7 & Hrow7 & Hexp7).
  destruct (H30 Hne30) as (row30 & Hrow30 & Hexp30).
  destruct (expected_row_temperatures _ _ _ _ _ Hexp7) as (Hmin7 & Hmax7 & _).
  destruct (expected_row_temperatures _ _ _ _ _ Hexp30) as (Hmin30 & Hmax30 & _).
  destruct (sql_min_spec _ (column_nonempty temperature_min _ Hne7)) as (min7 & Em7 & _ & Hatt7).
  destruct (sql_max_spec _ (column_nonempty temperature_max _ Hne7)) as (max7 & Ex7 & _ & Hatx7).
  destruct (sql_min_spec _ (column_nonempty temperature_min _ Hne30)) as (min30 & Em30 & Hlow & _).
  destruct (sql_max_spec _ (column_nonempty temperature_max _ Hne30)) as (max30 & Ex30 & Hup & _).
  exists row7, row30, min7, max7, min30, max30.
  rewrite Hmin7, Hmax7, Hmin30, Hmax30.
  do 6 (split; [assumption|]).
  unfold column in *. rewrite Forall_map in Hlow, Hup. rewrite Exists_map in Hatt7, Hatx7.
  rewrite Forall_forall in Hlow, Hup. rewrite Exists_exists in Hatt7, Hatx7.
  destruct Hatt7 as (r & Hr & Heq). destruct Hatx7 as (r' & Hr' & Heq').
  apply list_elem_of_In, window_rows_7_in_30, list_elem_of_In in Hr, Hr'.
  specialize (Hlow r Hr). specialize (Hup r' Hr'). simpl in *. split; lra.
Qed.

Lemma X17_week_inside_month_witness :
  exists row7 row30 min7 max7 min30 max30,
    lookup_stat (calculate_weather_stats sample_store 1 1000) 1 1000 7 = Some row7 /\
    lookup_stat (calculate_weather_stats sample_store 1 1000) 1 1000 30 = Some row30 /\
    min_temperature row7 = Some min7 /\ max_temperature row7 = Some max7 /\
    min_temperature row30 = Some min30 /\ max_temperature row30 = Some max30 /\
    (min30 <= min7)%Q /\ (max7 <= max30)%Q.
Proof.
  apply (X17_week_inside_month sample_store 1 1000).
  - exact sample_store_ids_ok.
  - vm_compute. discriminate.
Defined.

Lemma Qsum_lower (lo : Q) (xs : list Q) :
  Forall (fun x => (lo <= x)%Q) xs ->
  (lo * inject_Z (Z.of_nat (length xs)) <= Qsum xs)%Q.
Proof.
  induction 1 as [|x xs Hx _ IH]; simpl Qsum.
  - change (inject_Z (Z.of_nat (@length Q []))) with 0%Q. lra.
  - simpl length. rewrite Nat2Z.inj_succ. unfold Z.succ. rewrite inject_Z_plus.
    change (inject_Z 1) with 1%Q. lra.
Qed.

Lemma Qsum_upper (hi : Q) (xs : list Q) :
  Forall (fun x => (x <= hi)%Q) xs ->
  (Qsum xs <= hi * inject_Z (Z.of_nat (length xs)))%Q.
Proof.
  induction 1 as [|x xs Hx _ IH]; simpl Qsum.
  - change (inject_Z (Z.of_nat (@length Q []))) with 0%Q. lra.
  - simpl length. rewrite Nat2Z.inj_succ. unfold Z.succ. rewrite inject_Z_plus.
    change (inject_Z 1) with 1%Q. lra.
Qed.

Lemma mean_between (lo hi : Q) (xs : list Q) :
  xs <> [] ->
  Forall (fun x => (lo <= x)%Q) xs -> Forall (fun x => (x <= hi)%Q) xs ->
  (lo <= Qsum xs / inject_Z (Z.of_nat (length xs)) <= hi)%Q.
Proof.
  intros Hne Hlo Hhi.
  assert (Hn : (0 < inject_Z (Z.of_nat (length xs)))%Q).
  { rewrite <- (Zlt_Qlt 0). destruct xs; [congruence|simpl; lia]. }
  split.
  - apply Qle_shift_div_l; [exact Hn|apply Qsum_lower; exact Hlo].
  - apply Qle_shift_div_r; [exact Hn|apply Qsum_upper; exact Hhi].
Qed.

(** X18: when every day of a non-empty window has temperature_min <=
    temperature <= temperature_max, the statistic stored for the period has
    all three temperature figures and min_temperature <= avg_temperature <=
    max_temperature. *)
Theorem X18_statistics_ordered (s : Store) (city_id : Z) (today : date) (p : Z) :
  stats_ids_ok s -> p = 7 \/ p = 30 ->
  window_rows s city_id (today - p) today <> [] ->
  (forall r, In r (window_rows s city_id (today - p) today) ->
             (temperature_min (wd_day r) <= temperature (wd_day r)
              <= temperature_max (wd_day r))%Q) ->
  exists row min_t avg_t max_t,
    lookup_stat (calculate_weather_stats s city_id today) city_id today p = Some row /\
    min_temperature row = Some min_t /\
    avg_temperature row = Some avg_t /\
    max_temperature row = Some max_t /\
    (min_t <= avg_t <= max_t)%Q.
Proof.
  intros Hok Hp Hne Hordered.
  destruct (calculate_weather_stats_lookup s city_id today p Hok Hp) as [_ Hemit].
  destruct (Hemit Hne) as (row & Hrow & Hexp).
  destruct (expected_row_temperatures _ _ _ _ _ Hexp) as (Hmin & Hmax & Havg).
  set (rows := window_rows s city_id (today - p) today) in *.
  destruct (sql_min_spec _ (column_nonempty temperature_min _ Hne)) as (min_t & Emin & Hlow & _).
  destruct (sql_max_spec _ (column_nonempty temperature_max _ Hne)) as (max_t & Emax & Hup & _).
  rewrite (sql_avg_spec _ (column_nonempty temperature _ Hne)) in Havg.
  eexists row, min_t, _, max_t.
  split; [exact Hrow|]. split; [rewrite Hmin; exact Emin|].
  split; [exact Havg|]. split; [rewrite Hmax; exact Emax|].
  unfold column in Hlow, Hup. rewrite Forall_map in Hlow, Hup.
  rewrite Forall_forall in Hlow, Hup.
  apply mean_between.
  - apply column_nonempty. exact Hne.
  - unfold column. rewrite Forall_map. apply Forall_forall. intros r Hr.
    specialize (Hlow r Hr). apply list_elem_of_In in Hr.
    specialize (Hordered r Hr). simpl in *. lra.
  - unfold column. rewrite Forall_map. apply Forall_forall. intros r Hr.
    specialize (Hup r Hr). apply list_elem_of_In in Hr.
    specialize (Hordered r Hr). simpl in *. lra.
Qed.

Lemma X18_statistics_ordered_witness :
  exists row min_t avg_t max_t,
    lookup_stat (calculate_weather_stats sample_store 1 1000) 1 1000 30 = Some row /\
    min_temperature row = Some min_t /\
    avg_temperature row = Some avg_t /\
    max_temperature row = Some max_t /\
    (min_t <= avg_t <= max_t)%Q.
Proof.
  apply (X18_statistics_ordered sample_store 1 1000 30).
  - exact sample_store_ids_ok.
  - right. reflexivity.
  - vm_compute. discriminate.
  - intros r Hr. vm_compute in Hr.
    repeat (destruct Hr as [<-|Hr]; [vm_compute; split; discriminate|]). destruct Hr.
Defined.






(** ** Ingestion twice, values included *)

Lemma set_weather_columns_twice r x y :
  set_weather_columns (set_weather_columns r x) y = set_weather_columns r y.
Proof. reflexivity. Qed.










(** ** Registering a city *)

Lemma select_city_id_some e db name country id :
  select_city_id e db name country = Some id ->
  exists n c r,
    name = Some n /\ country = Some c /\ In r (cities db) /\ c_id r = id /\
    same_text e (c_name r) n = true /\ same_text e (c_country r) c = true.
Proof.
  unfold select_city_id. destruct name as [n|], country as [c|]; try discriminate.
  destruct (List.find _ (cities db)) as [r|] eqn:Hfind; [|discriminate].
  intros [= <-]. apply find_some in Hfind as [Hin Hkey].
  apply andb_true_iff in Hkey as [Hn Hc].
  exists n, c, r. auto 10.
Qed.

Lemma register_city_cases e db info id db' :
  register_city e db info = Some (id, db') ->
  select_city_id e db' (ci_name info) (ci_country info) = Some id /\
  ((db' = db /\ select_city_id e db (ci_name info) (ci_country info) = Some id) \/
   (select_city_id e db (ci_name info) (ci_country info) = None /\
    insert_city e db info = Some db')).
Proof.
  unfold register_city.
  destruct (select_city_id e db (ci_name info) (ci_country info)) as [id0|] eqn:Hsel.
  - intros [= <- <-]. auto.
  - destruct (insert_city e db info) as [db1|] eqn:Hins; [|discriminate].
    destruct (select_city_id e db1 (ci_name info) (ci_country info)) as [id1|] eqn:Hsel1;
      [|discriminate].
    intros [= <- <-]. auto.
Qed.

Lemma insert_city_cases e db info db' :
  insert_city e db info = Some db' ->
  exists n c lat lon,
    ci_name info = Some n /\ ci_country info = Some c /\
    ci_latitude info = Some lat /\ ci_longitude info = Some lon /\
    accepts e n c lat lon = true /\
    db' = {| cities := cities db ++
                       [{| c_id := cities_next db; c_name := n; c_country := c;
                           c_latitude := lat; c_longitude := lon |}];
             cities_next := cities_next db + 1;
             tables := tables db |}.
Proof.
  unfold insert_city.
  destruct (ci_name info) as [n|], (ci_country info) as [c|],
    (ci_latitude info) as [lat|], (ci_longitude info) as [lon|]; try discriminate.
  destruct (accepts e n c lat lon) eqn:Hacc; [|discriminate].
  intros [= <-]. exists n, c, lat, lon. auto 10.
Qed.

Lemma cities_unique_snoc e l x :
  cities_unique e (l ++ [x]) <->
  cities_unique e l /\ Forall (fun a => same_city e a x = false) l.
Proof.
  induction l as [|a l IH]; simpl.
  - split; [intros _; split; [exact I|constructor]|intros _; split; [constructor|exact I]].
  - rewrite IH, Forall_app, !Forall_cons, Forall_nil. tauto.
Qed.

(** X21: registering is idempotent and stored coordinates are authoritative.
    Once a city has been found or inserted, registering any geocoding result
    with the same name and country, whatever its coordinates, returns the same
    id and changes nothing. *)
Theorem X21_register_city_idempotent
    (e : Engine) (db db' : Database) (info info' : city_info) (city_id : Z) :
  register_city e db info = Some (city_id, db') ->
  ci_name info' = ci_name info -> ci_country info' = ci_country info ->
  register_city e db' info' = Some (city_id, db').
Proof.
  intros Hreg Hname Hcountry.
  destruct (register_city_cases e db info city_id db' Hreg) as [Hsel _].
  unfold register_city. rewrite Hname, Hcountry, Hsel. reflexivity.
Qed.

Lemma X21_register_city_idempotent_witness :
  register_city exact_engine
    {| cities := cities sample_database ++
                 [{| c_id := 3; c_name := "Paris"; c_country := "France";
                     c_latitude := 48.85%Q; c_longitude := 2.35%Q |}];
       cities_next := 4; tables := sample_store |}
    {| ci_name := Some "Paris"; ci_country := Some "France";
       ci_latitude := Some 10%Q; ci_longitude := None |}
  = Some (3,
          {| cities := cities sample_database ++
                       [{| c_id := 3; c_name := "Paris"; c_country := "France";
                           c_latitude := 48.85%Q; c_longitude := 2.35%Q |}];
             cities_next := 4; tables := sample_store |}).
Proof.
  apply (X21_register_city_idempotent exact_engine sample_database _ paris).
  - vm_compute. reflexivity.
  - reflexivity.
  - reflexivity.
Defined.

Lemma register_city_keeps_constraints
    (e : Engine) (db db' : Database) (info : city_info) (city_id : Z) :
  cities_ok e db ->
  register_city e db info = Some (city_id, db') ->
  cities_ok e db' /\
  tables db' = tables db /\
  (cities db' = cities db \/
   exists n c lat lon,
     info = {| ci_name := Some n; ci_country := Some c;
               ci_latitude := Some lat; ci_longitude := Some lon |} /\
     city_id = cities_next db /\
     cities db' = cities db ++ [{| c_id := city_id; c_name := n; c_country := c;
                                   c_latitude := lat; c_longitude := lon |}]) /\
  exists n c r,
    ci_name info = Some n /\ ci_country info = Some c /\
    In r (cities db') /\ c_id r = city_id /\
    same_text e (c_name r) n = true /\ same_text e (c_country r) c = true.
Proof.
  intros (Huniq & Hnd & Hlt) Hreg.
  destruct (register_city_cases e db info city_id db' Hreg) as [Hsel [[-> _]|[Hnone Hins]]].
  - split; [repeat split; assumption|]. split; [reflexivity|]. split; [left; reflexivity|].
    apply select_city_id_some with (db := db). exact Hsel.
  - destruct (insert_city_cases e db info db' Hins)
      as (n & c & lat & lon & Hn & Hc & Hlat & Hlon & Hacc & ->).
    assert (Hfresh : Forall (fun a => same_city e a
                                        {| c_id := cities_next db; c_name := n; c_country := c;
                                           c_latitude := lat; c_longitude := lon |} = false)
                       (cities db)).
    { unfold select_city_id in Hnone. rewrite Hn, Hc in Hnone.
      destruct (List.find _ (cities db)) eqn:Hfind; [discriminate|].
      apply Forall_forall. intros a Ha. apply list_elem_of_In in Ha.
      apply (find_none _ _ Hfind a Ha). }
    assert (Hid : city_id = cities_next db).
    { unfold select_city_id in Hsel. rewrite Hn, Hc in Hsel. simpl cities in Hsel.
      rewrite find_snoc in Hsel.
      unfold select_city_id in Hnone. rewrite Hn, Hc in Hnone.
      destruct (List.find _ (cities db)); [discriminate|].
      simpl in Hsel. destruct (_ && _); [|discriminate]. simpl in Hsel. congruence. }
    split; [|split; [reflexivity|split]].
    + unfold cities_ok. simpl. split; [|split].
      * apply cities_unique_snoc. split; assumption.
      * rewrite map_app. simpl. apply NoDup_app. split; [exact Hnd|].
        split; [|apply NoDup_singleton].
        intros i Hi Hi'. apply list_elem_of_singleton in Hi'. subst i.
        apply list_elem_of_fmap in Hi as (r & Hr & Hin).
        rewrite Forall_forall in Hlt. specialize (Hlt r Hin). lia.
      * apply Forall_app. split.
        -- eapply Forall_impl; [exact Hlt|]. intros r Hr. simpl in Hr. lia.
        -- repeat constructor. simpl. lia.
    + right. exists n, c, lat, lon. subst city_id. split; [|split; reflexivity].
      destruct info; simpl in *. congruence.
    + eapply select_city_id_some. exact Hsel.
Qed.

(** X22: registering keeps the constraints of the cities table (UNIQUE
    (name, country) under the collation, distinct ids below the counter),
    never changes or removes a stored city, adds at most the one row built
    from the geocoding result, returns the id of a stored row with that name
    and country, and leaves the weather tables alone. *)
Theorem X22_register_city_keeps_constraints
    (e : Engine) (db db' : Database) (info : city_info) (city_id : Z) :
  cities_ok e db ->
  register_city e db info = Some (city_id, db') ->
  cities_ok e db' /\
  tables db' = tables db /\
  (cities db' = cities db \/
   exists n c lat lon,
     info = {| ci_name := Some n; ci_country := Some c;
               ci_latitude := Some lat; ci_longitude := Some lon |} /\
     city_id = cities_next db /\
     cities db' = cities db ++ [{| c_id := city_id; c_name := n; c_country := c;
                                   c_latitude := lat; c_longitude := lon |}]) /\
  exists n c r,
    ci_name info = Some n /\ ci_country info = Some c /\
    In r (cities db') /\ c_id r = city_id /\
    same_text e (c_name r) n = true /\ same_text e (c_country r) c = true.
Proof. apply register_city_keeps_constraints. Qed.

Lemma sample_database_cities_ok : cities_ok exact_engine sample_database.
Proof.
  unfold cities_ok. simpl. split; [|split].
  - repeat split; repeat constructor.
  - apply (bool_decide_unpack _). vm_compute. exact I.
  - repeat constructor.
Qed.

Lemma X22_register_city_keeps_constraints_witness :
  cities_ok exact_engine sample_database_with_paris /\
  tables sample_database_with_paris = tables sample_database /\
  (cities sample_database_with_paris = cities sample_database \/
   exists n c lat lon,
     paris = {| ci_name := Some n; ci_country := Some c;
                ci_latitude := Some lat; ci_longitude := Some lon |} /\
     3 = cities_next sample_database /\
     cities sample_database_with_paris
     = cities sample_database ++ [{| c_id := 3; c_name := n; c_country := c;
                                     c_latitude := lat; c_longitude := lon |}]) /\
  exists n c r,
    ci_name paris = Some n /\ ci_country paris = Some c /\
    In r (cities sample_database_with_paris) /\ c_id r = 3 /\
    same_text exact_engine (c_name r) n = true /\
    same_text exact_engine (c_country r) c = true.
Proof.
  apply (X22_register_city_keeps_constraints exact_engine sample_database
           sample_database_with_paris paris 3).
  - exact sample_database_cities_ok.
  - vm_compute. reflexivity.
Defined.

Lemma cities_unique_find e l r :
  (forall a, same_text e a a = true) ->
  cities_unique e l -> In r l ->
  List.find (fun x => same_text e (c_name x) (c_name r) && same_text e (c_country x) (c_country r)) l
  = Some r.
Proof.
  intros Hrefl. induction l as [|a l IH]; simpl; intros Huniq Hin; [contradiction|].
  destruct Huniq as [Ha Huniq]. destruct Hin as [->|Hin].
  - rewrite !Hrefl. reflexivity.
  - rewrite Forall_forall in Ha. apply list_elem_of_In in Hin.
    specialize (Ha r Hin). unfold same_city in Ha. rewrite Ha.
    apply IH; [exact Huniq|apply list_elem_of_In; exact Hin].
Qed.

(** X23: a stored city is found again.  Under a collation, registering a
    geocoding result that bears the name and country of a stored row returns
    the id of that very row and leaves the database as it is. *)
Theorem X23_stored_city_is_found
    (e : Engine) (db : Database) (r : CityRow) (info : city_info) :
  collation e ->
  cities_ok e db ->
  In r (cities db) ->
  ci_name info = Some (c_name r) -> ci_country info = Some (c_country r) ->
  register_city e db info = Some (c_id r, db).
Proof.
  intros (Hrefl & _ & _) (Huniq & _ & _) Hin Hname Hcountry.
  unfold register_city, select_city_id. rewrite Hname, Hcountry.
  rewrite (cities_unique_find e _ r Hrefl Huniq Hin). reflexivity.
Qed.

Lemma exact_engine_collation : collation exact_engine.
Proof.
  split; [|split]; simpl.
  - apply String.eqb_refl.
  - apply String.eqb_sym.
  - intros a b c Hab Hbc. apply String.eqb_eq in Hab, Hbc. subst. apply String.eqb_refl.
Qed.

Lemma X23_stored_city_is_found_witness :
  register_city exact_engine sample_database
    {| ci_name := Some "London"; ci_country := Some "United Kingdom";
       ci_latitude := None; ci_longitude := None |}
  = Some (2, sample_database).
Proof.
  apply (X23_stored_city_is_found exact_engine sample_database
           {| c_id := 2; c_name := "London"; c_country := "United Kingdom";
              c_latitude := 51.51%Q; c_longitude := (-0.13)%Q |}).
  - exact exact_engine_collation.
  - exact sample_database_cities_ok.
  - simpl. right. left. reflexivity.
  - reflexivity.
  - reflexivity.
Defined.

(** ** The batch *)

Lemma ingest_city_unique_keys s city_id today days :
  unique_keys s -> unique_keys (ingest_city s city_id today days).
Proof.
  intros [Hdata Hstats]. unfold ingest_city. destruct days as [|d ds]; [split; assumption|].
  set (sa := fold_left (upsert_weather_data city_id) (d :: ds) s).
  destruct (fold_upsert_keys city_id (d :: ds) s) as (Hnd & _).
  destruct (fold_upsert_stats city_id (d :: ds) s) as [Hs _].
  destruct (calculate_weather_stats_keys sa city_id today) as (Hnd' & _).
  cbv zeta in *. fold sa in Hnd, Hs. split.
  - rewrite calculate_weather_stats_data. apply Hnd. exact Hdata.
  - apply Hnd'. rewrite Hs. exact Hstats.
Qed.

Lemma upsert_weather_data_city_ids (P : Z -> Prop) city_id s daily_data :
  P city_id ->
  Forall (fun r => P (wd_city_id r)) (weather_data s) ->
  Forall (fun r => P (wd_city_id r)) (weather_data (upsert_weather_data city_id s daily_data)).
Proof.
  intros Hcity Hall. unfold upsert_weather_data.
  destruct (select_weather_data_id s city_id (dw_date daily_data)) as [id|]; simpl.
  - rewrite Forall_map. eapply Forall_impl; [exact Hall|].
    intros r Hr. simpl. destruct (wd_id r =? id); exact Hr.
  - apply Forall_app. split; [exact Hall|]. repeat constructor. exact Hcity.
Qed.

Lemma stats_for_period_city_ids (P : Z -> Prop) city_id today s period :
  P city_id ->
  Forall (fun r => P (ws_city_id r)) (weather_stats s) ->
  Forall (fun r => P (ws_city_id r)) (weather_stats (stats_for_period city_id today s period)).
Proof.
  intros Hcity Hall. destruct period as [p start_date]. unfold stats_for_period.
  destruct (avg_temp _); [|exact Hall].
  destruct (select_weather_stats_id s city_id today p) as [id|]; simpl.
  - rewrite Forall_map. eapply Forall_impl; [exact Hall|].
    intros r Hr. simpl. destruct (ws_id r =? id); exact Hr.
  - apply Forall_app. split; [exact Hall|]. repeat constructor. exact Hcity.
Qed.

Lemma ingest_city_city_ids (P : Z -> Prop) s city_id today days :
  P city_id ->
  Forall (fun r => P (wd_city_id r)) (weather_data s) ->
  Forall (fun r => P (ws_city_id r)) (weather_stats s) ->
  Forall (fun r => P (wd_city_id r)) (weather_data (ingest_city s city_id today days)) /\
  Forall (fun r => P (ws_city_id r)) (weather_stats (ingest_city s city_id today days)).
Proof.
  intros Hcity Hdata Hstats.
  assert (Hfold : forall l s0,
             Forall (fun r => P (wd_city_id r)) (weather_data s0) ->
             Forall (fun r => P (wd_city_id r))
               (weather_data (fold_left (upsert_weather_data city_id) l s0))).
  { induction l as [|x l IH]; intros s0 H0; simpl; [exact H0|].
    apply IH. apply upsert_weather_data_city_ids; assumption. }
  split.
  - rewrite (proj1 (ingest_city_data s city_id today days)). apply Hfold. exact Hdata.
  - unfold ingest_city. destruct days as [|d ds]; [exact Hstats|].
    rewrite calculate_weather_stats_eq.
    do 2 (apply stats_for_period_city_ids; [exact Hcity|]).
    rewrite (proj1 (fold_upsert_stats city_id (d :: ds) s)). exact Hstats.
Qed.

Lemma process_city_keeps e today current_month db g replies :
  database_ok e db ->
  database_ok e (snd (fst (process_city e today current_month db g replies))).
Proof.
  intros Hok. unfold process_city.
  destruct (get_city_coordinates (fst replies)) as [info|]; [|exact Hok].
  destruct (register_city e db info) as [[city_id db1]|] eqn:Hreg; [|exact Hok].
  destruct Hok as (Hcities & Hdata & Hstats & Huniq & Hfk_d & Hfk_s).
  destruct (register_city_keeps_constraints e db db1 info city_id Hcities Hreg)
    as (Hcities1 & Htables & Hgrow & (n & c & r & _ & _ & Hin & Hid & _)).
  assert (Hmono : forall i, i ∈ map c_id (cities db) -> i ∈ map c_id (cities db1)).
  { intros i Hi. destruct Hgrow as [->|(? & ? & ? & ? & _ & _ & ->)]; [exact Hi|].
    rewrite map_app. apply elem_of_app. left. exact Hi. }
  assert (Hcity : city_id ∈ map c_id (cities db1)).
  { apply list_elem_of_fmap. exists r. split; [symmetry; exact Hid|].
    apply list_elem_of_In. exact Hin. }
  assert (Hok1 : database_ok e db1).
  { rewrite <- Htables in Hdata, Hstats, Huniq, Hfk_d, Hfk_s.
    split; [exact Hcities1|]. split; [exact Hdata|]. split; [exact Hstats|].
    split; [exact Huniq|]. split.
    - eapply Forall_impl; [exact Hfk_d|]. intros x Hx. apply Hmono. exact Hx.
    - eapply Forall_impl; [exact Hfk_s|]. intros x Hx. apply Hmono. exact Hx. }
  destruct (fetch_for_city (snd replies) current_month info (today - 30) today g)
    as [[[|d ds]| |] g']; cbn [fst snd]; try exact Hok1.
  destruct Hok1 as (_ & Hdata1 & Hstats1 & Huniq1 & Hfk_d1 & Hfk_s1).
  unfold database_ok, foreign_keys_ok. cbn [tables cities].
  destruct (ingest_city_ids_ok (tables db1) city_id today (d :: ds) Hdata1 Hstats1) as [Hd Hs].
  split; [exact Hcities1|].
  split; [exact Hd|]. split; [exact Hs|].
  split; [exact (ingest_city_unique_keys _ city_id today (d :: ds) Huniq1)|].
  apply (ingest_city_city_ids (fun i => i ∈ map c_id (cities db1))); assumption.
Qed.

Lemma process_cities_keeps e today current_month batch :
  forall db g,
    database_ok e db ->
    database_ok e (snd (fst (process_cities e today current_month db g batch))).
Proof.
  induction batch as [|replies rest IH]; intros db g Hok; simpl; [exact Hok|].
  pose proof (process_city_keeps e today current_month db g replies Hok) as Hstep.
  destruct (process_city e today current_month db g replies) as [[status db'] g'].
  simpl in Hstep. destruct status; [apply IH; exact Hstep..|exact Hstep].
Qed.

(** X24: the batch keeps the whole schema consistent.  Starting from a
    database that satisfies its PRIMARY KEY, UNIQUE and FOREIGN KEY
    constraints, the run over any list of cities ends, finished or aborted, in
    a database that satisfies them, whatever the geocoding and the archive
    answer: no day or statistic is ever written for a city that is not
    stored. *)
Theorem X24_batch_keeps_schema_constraints
    (e : Engine) (today : date) (current_month : Z) (db : Database) (g : rng)
    (batch : list (geo_reply * api_reply)) :
  database_ok e db ->
  database_ok e (snd (fst (process_cities e today current_month db g batch))).
Proof. apply process_cities_keeps. Qed.

Lemma sample_database_ok : database_ok exact_engine sample_database.
Proof.
  split; [exact sample_database_cities_ok|].
  split; [exact sample_store_data_ids_ok|].
  split; [exact sample_store_ids_ok|].
  split; [exact sample_store_unique|].
  split; simpl;
    repeat (constructor; [apply (bool_decide_unpack _); vm_compute; exact I|]);
    constructor.
Qed.

Lemma X24_batch_keeps_schema_constraints_witness :
  database_ok exact_engine
    (snd (fst (process_cities exact_engine 1000 1 sample_database sample_tape sample_batch))).
Proof.
  apply (X24_batch_keeps_schema_constraints exact_engine 1000 1 sample_database sample_tape
           sample_batch).
  exact sample_database_ok.
Defined.

(** X25: a city that cannot be resolved is skipped and nothing else: when
    the geocoding request raises or finds no result, the run over the batch
    ends exactly as the run over the batch without that city. *)
Theorem X25_unresolved_city_is_skipped
    (e : Engine) (today : date) (current_month : Z) (db : Database) (g : rng)
    (before after : list (geo_reply * api_reply)) (replies : geo_reply * api_reply) :
  get_city_coordinates (fst replies) = None ->
  process_cities e today current_month db g (before ++ replies :: after)
  = process_cities e today current_month db g (before ++ after).
Proof.
  intros Hnone. revert db g.
  induction before as [|x before IH]; intros db g; simpl.
  - unfold process_city. rewrite Hnone. reflexivity.
  - destruct (process_city e today current_month db g x) as [[status db'] g'].
    destruct status; [apply IH..|reflexivity].
Qed.

Lemma X25_unresolved_city_is_skipped_witness :
  process_cities exact_engine 1000 1 sample_database sample_tape
    ([(GeoJson (Some [paris]), ApiRaises)] ++ (GeoJson (Some []), ApiRaises) :: [])
  = process_cities exact_engine 1000 1 sample_database sample_tape
      ([(GeoJson (Some [paris]), ApiRaises)] ++ []).
Proof.
  apply (X25_unresolved_city_is_skipped exact_engine 1000 1 sample_database sample_tape
           [(GeoJson (Some [paris]), ApiRaises)] [] (GeoJson (Some []), ApiRaises)).
  reflexivity.
Defined.

(** The sample batch, evaluated: the first city is skipped, Paris is
    registered with id 3 and gets the 31 generated days and both
    statistics. *)
Example sample_batch_run :
  let '(finished, db, _) :=
    process_cities exact_engine 1000 1 sample_database sample_tape sample_batch in
  finished = true /\
  map c_id (cities db) = [1; 2; 3] /\
  length (city_days (tables db) 3) = 31%nat /\
  map period_days (city_stats (tables db) 3) = [7; 30].
Proof. vm_compute. repeat split; reflexivity. Qed.

Lemma fetch_for_city_returns reply current_month info start_date end_date g :
  rng_ok g -> is_Some (ci_latitude info) ->
  exists data g',
    fetch_for_city reply current_month info start_date end_date g = (Returned data, g') /\
    rng_ok g'.
Proof.
  intros Hg [latitude Hlat]. unfold fetch_for_city, try_except. rewrite Hlat.
  pose proof (ends_fetch_body reply g) as Hends.
  pose proof (keeps_fetch_body reply g Hg) as Hkeeps.
  destruct (fetch_body reply g) as [[data| |] g1]; simpl in *.
  - exists data, g1. split; [reflexivity|exact Hkeeps].
  - destruct (generate_sample_weather_data_spec current_month start_date end_date latitude
                g1 Hkeeps) as (data & g' & Hgen & Hg' & _).
    exists data, g'. split; assumption.
  - congruence.
Qed.

Lemma process_city_completes e today current_month db g replies :
  rng_ok g ->
  match get_city_coordinates (fst replies) with
  | Some info => is_Some (ci_latitude info)
  | None => True
  end ->
  fst (fst (process_city e today current_month db g replies)) <> Aborted /\
  rng_ok (snd (process_city e today current_month db g replies)).
Proof.
  intros Hg Hlat. unfold process_city.
  destruct (get_city_coordinates (fst replies)) as [info|]; [|split; [discriminate|exact Hg]].
  destruct (register_city e db info) as [[city_id db1]|]; [|split; [discriminate|exact Hg]].
  destruct (fetch_for_city_returns (snd replies) current_month info (today - 30) today g Hg Hlat)
    as (data & g' & Hrun & Hg').
  rewrite Hrun. destruct data; split; try discriminate; exact Hg'.
Qed.

Lemma process_cities_completes e today current_month batch :
  forall db g,
    rng_ok g -> batch_has_latitudes batch ->
    fst (fst (process_cities e today current_month db g batch)) = true.
Proof.
  induction batch as [|replies rest IH]; intros db g Hg Hall; simpl; [reflexivity|].
  apply Forall_cons in Hall as [Hlat Hrest].
  destruct (process_city_completes e today current_month db g replies Hg Hlat) as [Hstatus Hg'].
  destruct (process_city e today current_month db g replies) as [[status db'] g'].
  simpl in *. destruct status; [apply IH; assumption..|congruence].
Qed.

(** X26: the run over the cities is never aborted when every geocoding
    result carries a latitude: whatever the archive answers for each city
    (exceptions and malformed replies included), every city of the batch is
    processed. *)
Theorem X26_batch_completes
    (e : Engine) (today : date) (current_month : Z) (db : Database) (g : rng)
    (batch : list (geo_reply * api_reply)) :
  rng_ok g -> batch_has_latitudes batch ->
  fst (fst (process_cities e today current_month db g batch)) = true.
Proof. apply process_cities_completes. Qed.

Lemma X26_batch_completes_witness :
  fst (fst (process_cities exact_engine 1000 1 sample_database sample_tape sample_batch))
  = true.
Proof.
  apply (X26_batch_completes exact_engine 1000 1 sample_database sample_tape sample_batch).
  - exact sample_tape_ok.
  - repeat constructor. simpl. eexists. reflexivity.
Defined.

(** X27: the one way a city aborts the run.  When the geocoding result of a
    registered city has no latitude and the archive request raises, the
    fallback generator raises on the missing latitude outside any handler of
    the loop: the run stops there, the database is as it was, and the cities
    after it are not processed. *)
Theorem X27_missing_latitude_aborts
    (e : Engine) (today : date) (current_month : Z) (db : Database) (g : rng)
    (info : city_info) (others : list city_info) (city_id : Z)
    (rest : list (geo_reply * api_reply)) :
  ci_latitude info = None ->
  register_city e db info = Some (city_id, db) ->
  process_cities e today current_month db g
    ((GeoJson (Some (info :: others)), ApiRaises) :: rest)
  = (false, db, g).
Proof.
  intros Hlat Hreg. simpl. unfold process_city. simpl.
  replace {| ci_name := ci_name info; ci_country := ci_country info;
             ci_latitude := ci_latitude info; ci_longitude := ci_longitude info |}
    with info by (destruct info; reflexivity).
  rewrite Hreg. unfold fetch_for_city, try_except. simpl. rewrite Hlat. reflexivity.
Qed.

Lemma X27_missing_latitude_aborts_witness :
  process_cities exact_engine 1000 1 sample_database sample_tape
    ((GeoJson (Some (london_without_coordinates :: [])), ApiRaises)
       :: [(GeoJson (Some [paris]), ApiRaises)])
  = (false, sample_database, sample_tape).
Proof.
  apply (X27_missing_latitude_aborts exact_engine 1000 1 sample_database sample_tape
           london_without_coordinates [] 2).
  - reflexivity.
  - vm_compute. reflexivity.
Defined.

(** ** A failed archive request, end to end *)






